(** * The summary queue and the orders cache of the executive-orders worker

    A shallow embedding of [src/types.ts] (the worker module): the
    constants, the [QueueItem] and [CachedData] records, the two
    summarization backends, [processQueue] and [updateCache].

    The key-value namespace [EXECUTIVE_ORDERS_CACHE] is a finite map from
    keys to stored documents, together with the log of the [put] calls made
    on it.  The outside world (the clock, the Federal Register endpoints,
    the two summarization services) is a record of oracles indexed by the
    number of outside calls made so far, so that two calls with the same
    arguments may answer differently.  [async] functions are run
    sequentially: an [await] is a plain bind, and the two promises of
    [scheduled] are not interleaved.  [get] and [put] on the namespace
    always succeed, and a stored document is kept as the value that was
    stringified.  [console.log] and [console.error] are left out. *)

From Stdlib Require Import ZArith Lia Sorted.
From stdpp Require Import gmap strings list fin_maps.

Local Open Scope string_scope.

(** ** Constants *)

Definition BASE_URL : string := "https://www.federalregister.gov/api/v1/documents.json".
Definition MAX_CONCURRENT_REQUESTS : nat := 5.
Definition RETRY_DELAY_MS : Z := 60000.
Definition MAX_RETRIES : Z := 3.
Definition PER_PAGE : string := "50".
Definition AI_MODEL : string := "@cf/meta/llama-3.2-3b-instruct".
Definition AI_USE_CF : bool := true.

(** ** Data model *)

Inductive Status : Type := pending | processing | completed | failed.

#[global] Instance Status_eq_dec : EqDecision Status.
Proof. solve_decision. Defined.

Record QueueItem : Type := mkQueueItem {
  documentNumber : string;
  rawTextUrl : string;
  status : Status;
  attempts : Z;
  lastAttempt : option Z
}.

#[global] Instance QueueItem_eq_dec : EqDecision QueueItem.
Proof. solve_decision. Defined.

(** The order as [fetchExecutiveOrders] builds it ([president] holds the
    name). *)
Record ExecutiveOrder : Type := mkExecutiveOrder {
  raw_text_url : string;
  pdf_url : string;
  document_number : string;
  publication_date : string;
  signing_date : string;
  title : string;
  executive_order_number : string;
  president : string;
  type : string
}.

Record CachedData : Type := mkCachedData {
  lastUpdated : Z;
  orders : list ExecutiveOrder
}.

(** One entry of [results] in the listing answer; [r_president] is [None]
    when the field is missing, and reading [.name] of it throws. *)
Record RawResult : Type := mkRawResult {
  r_raw_text_url : string;
  r_pdf_url : string;
  r_document_number : string;
  r_publication_date : string;
  r_signing_date : string;
  r_title : string;
  r_executive_order_number : string;
  r_president : option string;
  r_type : string
}.

(** What a key of the namespace holds: the stringified snapshot, the
    stringified queue, or a summary text. *)
Inductive KVValue : Type :=
  | VSnapshot (c : CachedData)
  | VQueue (q : list QueueItem)
  | VText (s : string).

(** ** Outcomes, the outside world and the state *)

Inductive Outcome (A : Type) : Type :=
  | Ok (a : A)
  | Throw (e : string).
Arguments Ok {A} a.
Arguments Throw {A} e.

(** Answer of [fetch] on a raw-text URL. *)
Record Response : Type := mkResponse {
  ok : bool;
  statusText : string;
  text : Outcome string
}.

(** Answer of [fetch] on the listing URL; [l_json] is [response.json()]
    read as [data.results]. *)
Record ListingResponse : Type := mkListingResponse {
  l_ok : bool;
  l_statusText : string;
  l_json : Outcome (list RawResult)
}.

(** Answer of the POST of [summarizeEOClaude]: [c_error] is
    [response.json()] read as [error?.message], [c_text] is
    [response.json()] read as [content[0].text]. *)
Record ClaudeResponse : Type := mkClaudeResponse {
  c_ok : bool;
  c_statusText : string;
  c_error : Outcome (option string);
  c_text : Outcome string
}.

Record World : Type := mkWorld {
  Date_now : nat -> Z;
  today : nat -> string;
  fetch_listing : nat -> string -> Outcome ListingResponse;
  fetch_text : nat -> string -> Outcome Response;
  AI_run : nat -> string -> list (string * string) -> Outcome (option string);
  fetch_claude : nat -> string -> string -> string -> Outcome ClaudeResponse;
  CLAUDE_API_KEY : string;
  CLAUDE_API_URL : string
}.

Record State : Type := mkState {
  kv : gmap string KVValue;
  puts : list (string * KVValue);
  tick : nat
}.

Definition M (A : Type) : Type := State -> Outcome A * State.

Definition ret {A} (a : A) : M A := fun s => (Ok a, s).

Definition throw {A} (e : string) : M A := fun s => (Throw e, s).

Definition bind {A B} (m : M A) (f : A -> M B) : M B :=
  fun s =>
    match m s with
    | (Ok a, s') => f a s'
    | (Throw e, s') => (Throw e, s')
    end.

Definition try_catch {A} (body : M A) (handler : string -> M A) : M A :=
  fun s =>
    match body s with
    | (Ok a, s') => (Ok a, s')
    | (Throw e, s') => handler e s'
    end.

Declare Scope js_scope.
Delimit Scope js_scope with js.
Notation "x <- c1 ;; c2" := (bind c1 (fun x => c2))
  (at level 100, c1 at next level, right associativity) : js_scope.
Notation "c1 ;;; c2" := (bind c1 (fun _ => c2))
  (at level 100, right associativity) : js_scope.
Local Open Scope js_scope.

(** An outside call: answer of the oracle at the current tick, the tick
    advances. *)
Definition outside {A} (answer : nat -> A) : M A :=
  fun s => (Ok (answer (tick s)), mkState (kv s) (puts s) (S (tick s))).

Definition lift {A} (o : Outcome A) : M A := fun s => (o, s).

Definition kv_get (key : string) : M (option KVValue) :=
  fun s => (Ok (kv s !! key), s).

Definition kv_put (key : string) (v : KVValue) : M unit :=
  fun s => (Ok tt, mkState (<[key := v]> (kv s)) (puts s ++ [(key, v)]) (tick s)).

(** [(await get('summary_queue', 'json')) as QueueItem[] || []]: an absent
    key gives the empty queue; a stored document that is not a queue is a
    type error. *)
Definition get_queue : M (list QueueItem) :=
  o <- kv_get "summary_queue" ;;
  match o with
  | None => ret []
  | Some (VQueue q) => ret q
  | Some _ => throw "TypeError"
  end.

Definition summaryKey (doc : string) : string := "summary:" ++ doc.

(** ** The summarization backends *)

(** The instructions of both prompts, up to white space. *)

Definition instructions : string :=
  "Don't repeat the title or document number.Please provide a summary of this executive order in markdown format. Focus on the main purpose, key provisions, identify affected groups and potential impact on those groups. Keep the summary clear and accessible to a general audience. Use markdown headings, lists, and other formatting to make the summary easy to read. Include at least 5 Frequently Asked Questions with with bolded text and bullet points but do not add Q and A to the questions. Answers should be bulleted on a new line, indented and italicized. Executive Order text: ".

Definition truthy (s : string) : bool := negb (String.eqb s "").

(** The [messages] array of [summarizeEOCF], as (role, content) pairs. *)
Definition messagesCF (txt : string) : list (string * string) :=
  [ ("system", "You are a helpful assistant that summarizes executive orders for a general audience.");
    ("user", instructions ++ txt) ].

Section Worker.

Variable w : World.

Definition summarizeEOCF (txt : string) : M string :=
  let messages := messagesCF txt in
  r <- outside (fun t => AI_run w t AI_MODEL messages) ;;
  response <- lift r ;;
  match response with
  | Some s => if truthy s then ret s else ret "failed"
  | None => ret "failed"
  end.

Definition summarizeEOClaude (txt : string) : M string :=
  let payload := instructions ++ txt in
  try_catch
    (r <- outside (fun t => fetch_claude w t (CLAUDE_API_URL w) (CLAUDE_API_KEY w) payload) ;;
     response <- lift r ;;
     if negb (c_ok response) then
       errorData <- lift (c_error response) ;;
       throw ("Claude API error: " ++ match errorData with
                                      | Some m => if truthy m then m else c_statusText response
                                      | None => c_statusText response
                                      end)
     else
       lift (c_text response))
    (fun _ => throw "Failed to generate summary").

Definition summarizeEO (txt : string) : M string :=
  if AI_USE_CF then summarizeEOCF txt else summarizeEOClaude txt.

(** ** processQueue *)

(** The filter predicate.  [!item.lastAttempt] holds for a missing field
    and for 0; [Date.now()] is only read when the tests before it pass. *)
Definition isEligible (item : QueueItem) : M bool :=
  match status item with
  | pending => ret true
  | failed =>
      if (attempts item <? MAX_RETRIES)%Z then
        match lastAttempt item with
        | None => ret true
        | Some t =>
            if (t =? 0)%Z then ret true
            else now <- outside (Date_now w) ;;
                 ret (RETRY_DELAY_MS <=? now - t)%Z
        end
      else ret false
  | _ => ret false
  end.

(** [queueData.filter(...)]: the objects kept are those of [queueData]
    itself, so an element of the result is named by its position in
    [queueData]; [i] is the position of the head of [q]. *)
Fixpoint eligibleFrom (i : nat) (q : list QueueItem) : M (list nat) :=
  match q with
  | [] => ret []
  | item :: rest =>
      b <- isEligible item ;;
      r <- eligibleFrom (S i) rest ;;
      ret (if b then i :: r else r)
  end.

Definition eligibleItems (queueData : list QueueItem) : M (list nat) :=
  eligibleFrom 0 queueData.

Definition markProcessing (item : QueueItem) (now : Z) : QueueItem :=
  mkQueueItem (documentNumber item) (rawTextUrl item) processing
              (attempts item + 1)%Z (Some now).

Definition setStatus (item : QueueItem) (st : Status) : QueueItem :=
  mkQueueItem (documentNumber item) (rawTextUrl item) st
              (attempts item) (lastAttempt item).

(** The first three statements of the [try] block: fetch the raw text
    (the status of the response is not looked at), read the body, call the
    generator. *)
Definition fetchAndSummarize (item : QueueItem) : M string :=
  r <- outside (fun t => fetch_text w t (rawTextUrl item)) ;;
  resp <- lift r ;;
  txt <- lift (text resp) ;;
  summarizeEO txt.

(** The [try] block of the loop body; it yields the status the item gets. *)
Definition summarizeItem (item : QueueItem) : M Status :=
  summary <- fetchAndSummarize item ;;
  kv_put (summaryKey (documentNumber item)) (VText summary) ;;;
  ret completed.

(** One turn of the [for] loop on the object at position [i] of
    [queueData]; the result is [queueData] after the turn. *)
Definition processItem (queueData : list QueueItem) (i : nat) : M (list QueueItem) :=
  match queueData !! i with
  | None => ret queueData
  | Some item =>
      now <- outside (Date_now w) ;;
      let item1 := markProcessing item now in
      let q1 := <[i := item1]> queueData in
      kv_put "summary_queue" (VQueue q1) ;;;
      st <- try_catch (summarizeItem item1) (fun _ => ret failed) ;;
      let q2 := <[i := setStatus item1 st]> q1 in
      kv_put "summary_queue" (VQueue q2) ;;;
      ret q2
  end.

Fixpoint processItems (queueData : list QueueItem) (itemsToProcess : list nat)
  : M (list QueueItem) :=
  match itemsToProcess with
  | [] => ret queueData
  | i :: rest =>
      q' <- processItem queueData i ;;
      processItems q' rest
  end.

Definition processQueue : M unit :=
  queueData <- get_queue ;;
  if Nat.eqb (length queueData) 0 then ret tt
  else
    eligible <- eligibleItems queueData ;;
    let itemsToProcess := take MAX_CONCURRENT_REQUESTS eligible in
    processItems queueData itemsToProcess ;;;
    ret tt.

(** ** fetchExecutiveOrders and updateCache *)

Definition fields : list string :=
  [ "document_number"; "executive_order_number"; "raw_text_url"; "pdf_url";
    "president"; "publication_date"; "signing_date"; "title"; "type" ].

(** [params.toString()], with the brackets of the names percent-encoded. *)
Definition queryString (day : string) : string :=
  String.concat "&"
    (((fun field => "fields%5B%5D=" ++ field) <$> fields) ++
     [ "per_page=" ++ PER_PAGE;
       "conditions%5Bpublication_date%5D%5Bgte%5D=2017-01-20";
       "conditions%5Bpublication_date%5D%5Blte%5D=" ++ day;
       "conditions%5Bpresidential_document_type%5D%5B%5D=executive_order" ]).

Definition listingUrl (day : string) : string :=
  BASE_URL ++ "?" ++ queryString day.

Definition normalize (result : RawResult) : Outcome ExecutiveOrder :=
  match r_president result with
  | None => Throw "TypeError"
  | Some name =>
      Ok (mkExecutiveOrder (r_raw_text_url result) (r_pdf_url result)
            (r_document_number result) (r_publication_date result)
            (r_signing_date result) (r_title result)
            (r_executive_order_number result) name (r_type result))
  end.

Fixpoint mapOutcome {A B} (f : A -> Outcome B) (l : list A) : Outcome (list B) :=
  match l with
  | [] => Ok []
  | x :: rest =>
      match f x with
      | Throw e => Throw e
      | Ok y =>
          match mapOutcome f rest with
          | Throw e => Throw e
          | Ok ys => Ok (y :: ys)
          end
      end
  end.

Definition fetchExecutiveOrders : M (list ExecutiveOrder) :=
  day <- outside (today w) ;;
  let url := listingUrl day in
  r <- outside (fun t => fetch_listing w t url) ;;
  response <- lift r ;;
  if negb (l_ok response) then
    throw ("Failed to fetch orders: " ++ l_statusText response)
  else
    results <- lift (l_json response) ;;
    lift (mapOutcome normalize results).

Definition newQueueItem (order : ExecutiveOrder) : QueueItem :=
  mkQueueItem (document_number order) (raw_text_url order) pending 0 None.

(** The body of [if (summary) { ... }] in [updateCache]. *)
Definition enqueueNew (orders : list ExecutiveOrder) : M unit :=
  existingQueue <- get_queue ;;
  let existingDocs : gset string := list_to_set (documentNumber <$> existingQueue) in
  let newQueueItems :=
    newQueueItem <$> filter (fun order => document_number order ∉ existingDocs) orders in
  if Nat.ltb 0 (length newQueueItems) then
    kv_put "summary_queue" (VQueue (existingQueue ++ newQueueItems))
  else ret tt.

(** [summary] is the optional parameter: [None] when the caller leaves it
    out. *)
Definition updateCache (summary : option bool) : M unit :=
  try_catch
    (orders <- fetchExecutiveOrders ;;
     now <- outside (Date_now w) ;;
     let cacheData := mkCachedData now orders in
     kv_put "orders" (VSnapshot cacheData) ;;;
     match summary with
     | Some true => enqueueNew orders
     | _ => ret tt
     end)
    (fun error => throw error).

(** ** Sequences of invocations *)

(** Invocations run one after the other, each to completion on the store
    the one before left.  The two promises that [scheduled] starts together
    are not of this form: their awaits interleave. *)
Inductive Call : Type :=
  | CallProcessQueue
  | CallUpdateCache (summary : option bool).

Definition runCall (c : Call) (s : State) : State :=
  match c with
  | CallProcessQueue => snd (processQueue s)
  | CallUpdateCache summary => snd (updateCache summary s)
  end.

Definition runCalls (cs : list Call) (s : State) : State :=
  fold_left (fun st c => runCall c st) cs s.

(** Repeated [enqueueNew], one call per fetched list of orders. *)
Fixpoint enqueueAll (calls : list (list ExecutiveOrder)) : M unit :=
  match calls with
  | [] => ret tt
  | orders :: rest => enqueueNew orders ;;; enqueueAll rest
  end.

End Worker.

(** ** The API handlers *)

(** The JSON documents the handlers answer with. *)
Inductive Format : Type := fmt_markdown | fmt_text.

Record AiSummary : Type := mkAiSummary {
  content : string;
  format : Format
}.

Inductive Body : Type :=
  | BMessage (message : string)
  | BOrders (os : list ExecutiveOrder)
  | BOrder (order : ExecutiveOrder) (ai_summary : AiSummary) (key : string).

(** [c.json(body, status, headers)]. *)
Record Reply : Type := mkReply {
  json_body : Body;
  http_status : nat;
  http_headers : list (string * string)
}.

Definition noStoreHeaders : list (string * string) :=
  [ ("Cache-Control", "no-store, no-cache, must-revalidate, proxy-revalidate");
    ("Pragma", "no-cache");
    ("Expires", "0");
    ("Surrogate-Control", "no-store") ].

Definition placeholderSummary : AiSummary :=
  mkAiSummary "Summary is being generated..." fmt_text.

(** [get('orders')], the test [!cachedData] and [JSON.parse]: an absent key
    and an empty text are falsy; the stringified snapshot parses back to
    the snapshot; anything else is not a snapshot, which is a type error. *)
Definition get_snapshot : M (option CachedData) :=
  o <- kv_get "orders" ;;
  match o with
  | None => ret None
  | Some (VSnapshot c) => ret (Some c)
  | Some (VText s) => if truthy s then throw "TypeError" else ret None
  | Some (VQueue _) => throw "TypeError"
  end.

Section Api.

Variable w : World.

(** [JSON.stringify] of a stored snapshot or queue, for a key read back as
    text. *)
Variable stringify : KVValue -> string.

Definition get_text (key : string) : M (option string) :=
  o <- kv_get key ;;
  ret match o with
      | None => None
      | Some (VText s) => Some s
      | Some v => Some (stringify v)
      end.

(** [GET /api/cache]: the refresh is commented out. *)
Definition cacheHandler : M Reply :=
  ret (mkReply (BMessage "Cache updated") 200 noStoreHeaders).

(** [GET /api/orders]. *)
Definition ordersHandler : M Reply :=
  cachedData <- get_snapshot ;;
  match cachedData with
  | None =>
      updateCache w None ;;;
      ret (mkReply (BMessage "Data is being processed") 202 [])
  | Some parsedData => ret (mkReply (BOrders (orders parsedData)) 200 [])
  end.

(** [GET /api/order/:documentNumber]. *)
Definition orderHandler (documentNumber : string) : M Reply :=
  cachedData <- get_snapshot ;;
  match cachedData with
  | None => ret (mkReply (BMessage "Not Found") 404 [])
  | Some data =>
      match List.find (fun o => String.eqb (document_number o) documentNumber)
                      (orders data) with
      | None => ret (mkReply (BMessage "Order not found") 404 [])
      | Some order =>
          let key := summaryKey documentNumber in
          summary <- get_text key ;;
          let ai_summary :=
            match summary with
            | Some s => if truthy s then mkAiSummary s fmt_markdown
                        else placeholderSummary
            | None => placeholderSummary
            end in
          ret (mkReply (BOrder order ai_summary key) 200 noStoreHeaders)
      end
  end.

(** [POST /api/regenerate-summary/:documentNumber]: the body is commented
    out. *)
Definition regenerateHandler (documentNumber : string) : M Reply :=
  ret (mkReply (BMessage "disabled") 200 []).

End Api.

(** ** Reading the stored state *)

(** The queue a call finds in the store: empty when the key is absent,
    undefined when the key holds something that is not a queue. *)
Definition queueOf (s : State) : option (list QueueItem) :=
  match kv s !! "summary_queue" with
  | None => Some []
  | Some (VQueue q) => Some q
  | Some _ => None
  end.

Definition docs (q : list QueueItem) : list string := documentNumber <$> q.

(** The store after a list of puts. *)
Definition applyPuts (m : gmap string KVValue) (l : list (string * KVValue))
  : gmap string KVValue :=
  fold_left (fun m' p => <[p.1 := p.2]> m') l m.

(** The filter predicate of [processQueue] with the clock reading made
    explicit. *)
Definition eligibleAt (now : Z) (item : QueueItem) : bool :=
  match status item with
  | pending => true
  | failed =>
      (attempts item <? MAX_RETRIES)%Z &&
      match lastAttempt item with
      | None => true
      | Some t => (t =? 0)%Z || (RETRY_DELAY_MS <=? now - t)%Z
      end
  | _ => false
  end.

(** What fetching and summarizing [item] gives when it starts at tick [t]
    (the store plays no part in it). *)
Definition turnOutcome (w : World) (t : nat) (item : QueueItem) : Outcome string :=
  fst (fetchAndSummarize w item (mkState ∅ [] t)).

Definition turnStatus (w : World) (t : nat) (item : QueueItem) : Status :=
  match turnOutcome w t item with
  | Ok _ => completed
  | Throw _ => failed
  end.

(** The item after a turn of the loop that starts at tick [t]: the clock
    is read at [t], the fetch is made at [t + 1]. *)
Definition finalItem (w : World) (t : nat) (item : QueueItem) : QueueItem :=
  let item1 := markProcessing item (Date_now w t) in
  setStatus item1 (turnStatus w (S t) item1).

(** The puts of that turn, on the object at position [i] of [q]. *)
Definition turnPuts (w : World) (t : nat) (q : list QueueItem) (i : nat)
  (item : QueueItem) : list (string * KVValue) :=
  let item1 := markProcessing item (Date_now w t) in
  (("summary_queue", VQueue (<[i := item1]> q)) ::
   match turnOutcome w (S t) item1 with
   | Ok summary => [(summaryKey (documentNumber item), VText summary)]
   | Throw _ => []
   end ++
   [("summary_queue", VQueue (<[i := finalItem w t item]> q))])%list.

(** The fetch of the raw text made at tick [t] throws, or reading its body
    throws, or the generator called next throws. *)
Definition turnFails (w : World) (t : nat) (item : QueueItem) : Prop :=
  (exists e, fetch_text w t (rawTextUrl item) = Throw e) \/
  (exists resp e, fetch_text w t (rawTextUrl item) = Ok resp /\ text resp = Throw e) \/
  (exists resp txt e,
     fetch_text w t (rawTextUrl item) = Ok resp /\ text resp = Ok txt /\
     AI_run w (S t) AI_MODEL (messagesCF txt) = Throw e).

(** The fetch of the listing made at tick [t] throws or answers with a
    non-success status. *)
Definition listingFails (w : World) (t : nat) (url : string) : Prop :=
  (exists e, fetch_listing w t url = Throw e) \/
  (exists resp, fetch_listing w t url = Ok resp /\ l_ok resp = false).

(** [newQueueItems] of [enqueueNew], for the queue it read. *)
Definition newItemsFor (q : list QueueItem) (os : list ExecutiveOrder) : list QueueItem :=
  newQueueItem <$>
    filter (fun order => document_number order ∉ (list_to_set (documentNumber <$> q) : gset string)) os.

(** The snapshot a handler finds in the store, when the key holds one. *)
Definition snapshotOf (s : State) : option CachedData :=
  match kv s !! "orders" with
  | Some (VSnapshot c) => Some c
  | _ => None
  end.

(** The life cycle of an item, as [updateCache] creates it and
    [processQueue] leaves it at the end of an invocation. *)
Definition lifecycle (item : QueueItem) : Prop :=
  (status item = pending /\ attempts item = 0%Z /\ lastAttempt item = None) \/
  ((status item = completed \/ status item = failed) /\
   (1 <= attempts item <= MAX_RETRIES)%Z /\ exists t, lastAttempt item = Some t).

(** Every completed item of the stored queue has a non-empty summary text
    under the summary key of its document. *)
Definition summarized (s : State) : Prop :=
  exists q, queueOf s = Some q /\
    forall item, item ∈ q -> status item = completed ->
      exists t, kv s !! summaryKey (documentNumber item) = Some (VText t) /\
                truthy t = true.

(** The filter rejects the item whatever the clock reads, without reading
    it. *)
Definition settled (item : QueueItem) : Prop :=
  status item = completed \/ status item = processing \/
  (status item = failed /\ (MAX_RETRIES <= attempts item)%Z).

(** [item'] is [item] after one turn of the loop of [processQueue]. *)
Definition processed (item item' : QueueItem) : Prop :=
  documentNumber item' = documentNumber item /\
  rawTextUrl item' = rawTextUrl item /\
  attempts item' = (attempts item + 1)%Z /\
  (status item' = completed \/ status item' = failed) /\
  exists t, lastAttempt item' = Some t.

(** ** Sample worlds and stores *)

(** A world in which every network call throws. *)
Definition offlineWorld : World :=
  mkWorld (fun _ => 1700000000000%Z) (fun _ => "2025-01-20")
          (fun _ _ => Throw "offline") (fun _ _ => Throw "offline")
          (fun _ _ _ => Throw "offline") (fun _ _ _ _ => Throw "offline")
          "key" "https://api.anthropic.com/v1/messages".

(** A world in which the raw text is served and the hosted model answers. *)
Definition onlineWorld : World :=
  mkWorld (fun _ => 1700000000000%Z) (fun _ => "2025-01-20")
          (fun _ _ => Throw "offline")
          (fun _ _ => Ok (mkResponse true "OK" (Ok "By the authority vested in me")))
          (fun _ _ _ => Ok (Some "## Summary"))
          (fun _ _ _ _ => Throw "offline")
          "key" "https://api.anthropic.com/v1/messages".

(** A world in which the raw-text URL answers 404 with an error page and
    the hosted model summarizes whatever it is given. *)
Definition notFoundWorld : World :=
  mkWorld (fun _ => 1700000000000%Z) (fun _ => "2025-01-20")
          (fun _ _ => Throw "offline")
          (fun _ _ => Ok (mkResponse false "Not Found" (Ok "<h1>404 Not Found</h1>")))
          (fun _ _ _ => Ok (Some "## Summary of a missing page"))
          (fun _ _ _ _ => Throw "offline")
          "key" "https://api.anthropic.com/v1/messages".

(** A world in which the hosted model answers without a [response] field. *)
Definition silentModelWorld : World :=
  mkWorld (fun _ => 1700000000000%Z) (fun _ => "2025-01-20")
          (fun _ _ => Throw "offline")
          (fun _ _ => Ok (mkResponse true "OK" (Ok "By the authority vested in me")))
          (fun _ _ _ => Ok None)
          (fun _ _ _ _ => Throw "offline")
          "key" "https://api.anthropic.com/v1/messages".

Definition resultOf (doc : string) (name : option string) : RawResult :=
  mkRawResult ("https://www.federalregister.gov/documents/full_text/text/" ++ doc)
              ("https://www.govinfo.gov/content/pkg/" ++ doc ++ ".pdf")
              doc "2025-01-29" "2025-01-20" "Title" "14148" name
              "Presidential Document".

(** A world in which the listing answers with the given results, the raw
    text is served and the hosted model answers. *)
Definition listingWorld (results : list RawResult) : World :=
  mkWorld (fun _ => 1700000000000%Z) (fun _ => "2025-01-20")
          (fun _ _ => Ok (mkListingResponse true "OK" (Ok results)))
          (fun _ _ => Ok (mkResponse true "OK" (Ok "By the authority vested in me")))
          (fun _ _ _ => Ok (Some "## Summary"))
          (fun _ _ _ _ => Throw "offline")
          "key" "https://api.anthropic.com/v1/messages".

Definition storeWith (q : list QueueItem) : State :=
  mkState {["summary_queue" := VQueue q]} [] 0.

Definition emptyStore : State := mkState ∅ [] 0.

Definition pendingItem (doc : string) : QueueItem :=
  mkQueueItem doc ("https://www.federalregister.gov/documents/full_text/text/" ++ doc) pending 0 None.

Definition failedItem (doc : string) (n : Z) (last : option Z) : QueueItem :=
  mkQueueItem doc ("https://www.federalregister.gov/documents/full_text/text/" ++ doc)
              failed n last.

Definition orderOf (doc : string) : ExecutiveOrder :=
  mkExecutiveOrder ("https://www.federalregister.gov/documents/full_text/text/" ++ doc)
                   ("https://www.govinfo.gov/content/pkg/" ++ doc ++ ".pdf")
                   doc "2025-01-29" "2025-01-20" "Title" "14148" "Donald Trump"
                   "Presidential Document".

Definition sevenPending : list QueueItem :=
  pendingItem <$> ["A"; "B"; "C"; "D"; "E"; "F"; "G"].

(** * Properties *)

Ltac run_js :=
  unfold bind, ret, throw, lift, outside, kv_put, kv_get, try_catch in *;
  simpl in *.

Section Facts.

Variable w : World.

(** ** The filter *)

Lemma isEligible_run (item : QueueItem) (s : State) :
  exists t', isEligible w item s =
             (Ok (eligibleAt (Date_now w (tick s)) item), mkState (kv s) (puts s) t')
             /\ tick s <= t'.
Proof.
  destruct s as [m p t]. unfold isEligible, eligibleAt.
  destruct (status item); run_js; try (exists t; split; [reflexivity | lia]).
  destruct (attempts item <? MAX_RETRIES)%Z; simpl;
    [| exists t; split; [reflexivity | lia]].
  destruct (lastAttempt item) as [t0|]; [| exists t; split; [reflexivity | lia]].
  destruct (t0 =? 0)%Z; simpl.
  - exists t; split; [reflexivity | lia].
  - exists (S t); split; [reflexivity | lia].
Qed.


Lemma eligibleFrom_run (q : list QueueItem) :
  forall (i : nat) (s : State),
  exists l t',
    eligibleFrom w i q s = (Ok l, mkState (kv s) (puts s) t') /\
    tick s <= t' /\
    StronglySorted lt l /\
    (forall j, j ∈ l ->
       i <= j /\ exists item t0, q !! (j - i) = Some item /\ tick s <= t0 /\
                                 eligibleAt (Date_now w t0) item = true) /\
    (forall j item, q !! j = Some item -> status item = pending -> i + j ∈ l).
Proof.
  induction q as [|item rest IH]; intros i s.
  - exists [], (tick s). destruct s; simpl. unfold ret. simpl.
    repeat split; try lia; try constructor.
    + inversion H.
    + inversion H.
    + intros j it Hj; inversion Hj.
  - simpl. destruct (isEligible_run item s) as (t1 & He & Ht1).
    destruct (IH (S i) (mkState (kv s) (puts s) t1)) as (l & t2 & Hr & Ht2 & Hs & Hin & Hp).
    simpl in *.
    exists (if eligibleAt (Date_now w (tick s)) item then i :: l else l), t2.
    unfold bind at 1. rewrite He. unfold bind at 1. rewrite Hr. unfold ret.
    split; [reflexivity|]. split; [lia|].
    assert (Hlow : forall j, j ∈ l -> S i <= j) by (intros j Hj; apply Hin, Hj).
    split; [| split].
    + destruct (eligibleAt _ item); [| exact Hs].
      constructor; [exact Hs|]. apply Forall_forall. intros j Hj.
      apply Hlow in Hj. lia.
    + intros j Hj.
      assert (Hcases : (j = i /\ eligibleAt (Date_now w (tick s)) item = true) \/ j ∈ l).
      { destruct (eligibleAt _ item) eqn:E; [| right; exact Hj].
        apply elem_of_cons in Hj as [->|Hj]; [left | right]; auto. }
      destruct Hcases as [[-> E]|Hj'].
      * split; [lia|]. exists item, (tick s).
        replace (i - i) with 0 by lia. split; [reflexivity|]. split; [lia | exact E].
      * destruct (Hin j Hj') as (Hle & it & t0 & Hl & Ht0 & E).
        split; [lia|]. exists it, t0. split; [| split; [lia | exact E]].
        replace (j - i) with (S (j - S i)) by lia. exact Hl.
    + intros j it Hj Hst. destruct j as [|j]; simpl in Hj.
      * injection Hj as ->. replace (i + 0) with i by lia.
        unfold eligibleAt. rewrite Hst. apply elem_of_cons. left; reflexivity.
      * specialize (Hp j it Hj Hst). replace (i + S j) with (S i + j) by lia.
        destruct (eligibleAt _ item); [apply elem_of_cons; right|]; exact Hp.
Qed.

(** ** One turn of the loop *)

Lemma summaryKey_not_queue (doc : string) : summaryKey doc <> "summary_queue".
Proof. unfold summaryKey. simpl. discriminate. Qed.

Lemma summaryKey_not_orders (doc : string) : summaryKey doc <> "orders".
Proof. unfold summaryKey. simpl. discriminate. Qed.

Lemma fetchAndSummarize_run (item : QueueItem) (s : State) :
  exists t', fetchAndSummarize w item s =
             (turnOutcome w (tick s) item, mkState (kv s) (puts s) t')
             /\ tick s < t'.
Proof.
  unfold turnOutcome, fetchAndSummarize, summarizeEO, summarizeEOCF. run_js.
  destruct (fetch_text w (tick s) (rawTextUrl item)) as [resp|e]; simpl;
    [| eexists; split; [reflexivity | lia]].
  destruct (text resp) as [txt|e]; simpl; [| eexists; split; [reflexivity | lia]].
  destruct (AI_run w (S (tick s)) AI_MODEL (messagesCF txt)) as [[r|]|e]; simpl;
    try (eexists; split; [reflexivity | lia]).
  destruct (truthy r); eexists; (split; [reflexivity | lia]).
Qed.

Lemma processItem_run (q : list QueueItem) (i : nat) (item : QueueItem) (s : State) :
  q !! i = Some item ->
  exists t',
    processItem w q i s =
      (Ok (<[i := finalItem w (tick s) item]> q),
       mkState (applyPuts (kv s) (turnPuts w (tick s) q i item))
               (puts s ++ turnPuts w (tick s) q i item) t')
    /\ tick s < t'.
Proof.
  intros Hi.
  set (item1 := markProcessing item (Date_now w (tick s))).
  set (s1 := mkState (<["summary_queue" := VQueue (<[i := item1]> q)]> (kv s))
                     (puts s ++ [("summary_queue", VQueue (<[i := item1]> q))])
                     (S (tick s))).
  destruct (fetchAndSummarize_run item1 s1) as (t' & Hr & Ht).
  exists t'. split; [| simpl in Ht; lia].
  unfold processItem. rewrite Hi. unfold summarizeItem. run_js.
  fold item1. fold s1. rewrite Hr.
  unfold turnPuts, finalItem, turnStatus, applyPuts. fold item1.
  destruct (turnOutcome w (S (tick s)) item1) as [summary|e]; simpl;
    rewrite list_insert_insert_eq, <- !app_assoc; reflexivity.
Qed.

Lemma finalItem_processed (t : nat) (item : QueueItem) :
  processed item (finalItem w t item).
Proof.
  unfold processed, finalItem, turnStatus; simpl.
  split; [reflexivity|]. split; [reflexivity|]. split; [reflexivity|].
  split; [| eauto].
  destruct (turnOutcome w (S t) _); auto.
Qed.

Lemma turnPuts_keys (t : nat) (q : list QueueItem) (i : nat) (item : QueueItem) :
  Forall (fun p => p.1 = "summary_queue" \/ p.1 = summaryKey (documentNumber item))
         (turnPuts w t q i item).
Proof.
  unfold turnPuts. constructor; [left; reflexivity|].
  apply Forall_app. split.
  - destruct (turnOutcome w (S t) _); [| constructor].
    constructor; [right; reflexivity | constructor].
  - constructor; [left; reflexivity | constructor].
Qed.

Lemma applyPuts_app (m : gmap string KVValue) (l1 l2 : list (string * KVValue)) :
  applyPuts m (l1 ++ l2) = applyPuts (applyPuts m l1) l2.
Proof. unfold applyPuts. apply fold_left_app. Qed.

Lemma applyPuts_frame (l : list (string * KVValue)) :
  forall (m : gmap string KVValue) (k : string),
  Forall (fun p => p.1 <> k) l -> applyPuts m l !! k = m !! k.
Proof.
  induction l as [|[k0 v0] l IH]; intros m k Hall; [reflexivity|].
  apply Forall_cons in Hall as [Hne Hall]. simpl in *.
  unfold applyPuts in *. simpl. rewrite (IH _ k Hall).
  apply lookup_insert_ne. exact Hne.
Qed.

Lemma applyPuts_last (l : list (string * KVValue)) (m : gmap string KVValue)
  (k : string) (v : KVValue) :
  applyPuts m (l ++ [(k, v)]) !! k = Some v.
Proof. rewrite applyPuts_app. simpl. apply lookup_insert_eq. Qed.

Lemma turnPuts_last (t : nat) (q : list QueueItem) (i : nat) (item : QueueItem) :
  exists l, turnPuts w t q i item =
            (l ++ [("summary_queue", VQueue (<[i := finalItem w t item]> q))])%list.
Proof.
  unfold turnPuts. eexists (_ :: _). simpl. reflexivity.
Qed.

(** ** The loop and the whole invocation *)

Lemma processItems_spec (l : list nat) :
  forall (q : list QueueItem) (s : State),
  NoDup l -> (forall i, i ∈ l -> i < length q) ->
  exists q' s' new,
    processItems w q l s = (Ok q', s') /\
    length q' = length q /\
    (forall j, j ∉ l -> q' !! j = q !! j) /\
    (forall j, j ∈ l ->
       exists item t, q !! j = Some item /\ tick s <= t /\
                      q' !! j = Some (finalItem w t item)) /\
    (l = [] -> s' = s) /\
    (l <> [] -> kv s' !! "summary_queue" = Some (VQueue q')) /\
    puts s' = (puts s ++ new)%list /\ kv s' = applyPuts (kv s) new /\
    (l <> [] -> new <> []) /\
    tick s <= tick s' /\
    Forall (fun p => p.1 = "summary_queue" \/ exists d, p.1 = summaryKey d) new.
Proof.
  induction l as [|i rest IH]; intros q s Hnd Hlt.
  - exists q, s, []. simpl. unfold ret. rewrite app_nil_r.
    repeat split; try done.
    intros j Hj. inversion Hj.
  - apply NoDup_cons in Hnd as [Hi Hnd].
    assert (Hiq : i < length q) by (apply Hlt; left).
    destruct (lookup_lt_is_Some_2 q i Hiq) as [item Hitem].
    destruct (processItem_run q i item s Hitem) as (t1 & Hrun & Ht1).
    set (q1 := <[i := finalItem w (tick s) item]> q) in *.
    set (s1 := mkState _ _ t1) in *.
    assert (Hlt1 : forall j, j ∈ rest -> j < length q1).
    { intros j Hj. unfold q1. rewrite length_insert. apply Hlt. right; exact Hj. }
    destruct (IH q1 s1 Hnd Hlt1) as
      (q' & s' & new & Hrun' & Hlen & Hout & Hin & Hnil & Hkvq & Hputs & Hkv & _ & Ht & Hkeys).
    exists q', s', (turnPuts w (tick s) q i item ++ new)%list.
    cbn [processItems]. unfold bind at 1. rewrite Hrun.
    split; [exact Hrun'|].
    split; [rewrite Hlen; apply length_insert|].
    split; [| split; [| split; [| split; [| split; [| split; [| split; [| split]]]]]]].
    + intros j Hj. apply not_elem_of_cons in Hj as [Hne Hj].
      rewrite (Hout j Hj). apply list_lookup_insert_ne. congruence.
    + intros j Hj. apply elem_of_cons in Hj as [->|Hj].
      * exists item, (tick s). split; [exact Hitem|]. split; [lia|].
        rewrite (Hout i Hi). apply list_lookup_insert_eq. exact Hiq.
      * destruct (Hin j Hj) as (it & t & Hq1 & Hle & Hq').
        exists it, t. split; [| split; [simpl in Hle; lia | exact Hq']].
        unfold q1 in Hq1. rewrite list_lookup_insert_ne in Hq1; [exact Hq1|].
        intros ->. contradiction.
    + discriminate.
    + intros _. destruct rest as [|i2 rest2].
      * specialize (Hnil eq_refl). subst s'.
        simpl in Hrun'. unfold ret in Hrun'. injection Hrun' as <-.
        subst s1 q1. cbn [kv].
        destruct (turnPuts_last (tick s) q i item) as [l0 ->].
        apply applyPuts_last.
      * apply Hkvq. discriminate.
    + rewrite Hputs. subst s1. cbn [puts]. rewrite <- app_assoc. reflexivity.
    + rewrite Hkv. subst s1. cbn [kv]. rewrite applyPuts_app. reflexivity.
    + intros _ Happ. apply app_eq_nil in Happ as [Hn _].
      unfold turnPuts in Hn. discriminate.
    + simpl in Ht. lia.
    + apply Forall_app. split; [| exact Hkeys].
      eapply Forall_impl; [apply turnPuts_keys|].
      simpl. intros p [H|H]; [left | right]; eauto.
Qed.

Lemma get_queue_run (s : State) (q : list QueueItem) :
  queueOf s = Some q -> get_queue s = (Ok q, s).
Proof.
  unfold queueOf, get_queue. run_js.
  destruct (kv s !! "summary_queue") as [[c|q0|t]|]; simpl; congruence.
Qed.

Lemma take_eligible_props (q : list QueueItem) (l : list nat) (n : nat) :
  StronglySorted lt l ->
  (forall j, j ∈ l -> is_Some (q !! j)) ->
  NoDup (take n l) /\ (forall i, i ∈ take n l -> i < length q).
Proof.
  intros Hs Hin. split.
  - apply (sublist_NoDup _ l); [| apply sublist_take].
    clear Hin. induction Hs as [|a l Hs IH Hall]; constructor; auto.
    intros Ha. rewrite Forall_forall in Hall. specialize (Hall a Ha). lia.
  - intros i Hi. apply elem_of_take in Hi as (k & Hk & _).
    destruct (Hin i) as (item & Hl).
    + apply list_elem_of_lookup. eauto.
    + apply lookup_lt_Some in Hl. exact Hl.
Qed.

(** One invocation of [processQueue] from a store whose queue is [q]:
    the filter gives [eligible], the loop runs on its first
    [MAX_CONCURRENT_REQUESTS] positions. *)
Lemma processQueue_spec (s : State) (q : list QueueItem) :
  queueOf s = Some q ->
  exists eligible t1 q' s' new,
    eligibleItems w q s = (Ok eligible, mkState (kv s) (puts s) t1) /\
    StronglySorted lt eligible /\
    (forall j, j ∈ eligible ->
       exists item t0, q !! j = Some item /\ tick s <= t0 /\
                       eligibleAt (Date_now w t0) item = true) /\
    (forall j item, q !! j = Some item -> status item = pending -> j ∈ eligible) /\
    processQueue w s = (Ok tt, s') /\
    queueOf s' = Some q' /\
    length q' = length q /\
    (forall j, j ∉ take MAX_CONCURRENT_REQUESTS eligible -> q' !! j = q !! j) /\
    (forall j, j ∈ take MAX_CONCURRENT_REQUESTS eligible ->
       exists item t, q !! j = Some item /\ tick s <= t /\
                      q' !! j = Some (finalItem w t item)) /\
    puts s' = (puts s ++ new)%list /\ kv s' = applyPuts (kv s) new /\
    (take MAX_CONCURRENT_REQUESTS eligible = [] -> new = []) /\
    (take MAX_CONCURRENT_REQUESTS eligible <> [] -> new <> []) /\
    Forall (fun p => p.1 = "summary_queue" \/ exists d, p.1 = summaryKey d) new.
Proof.
  intros Hq.
  destruct (eligibleFrom_run q 0 s) as (l & t1 & Hel & Ht1 & Hs & Hin & Hp).
  assert (Hin' : forall j, j ∈ l ->
            exists item t0, q !! j = Some item /\ tick s <= t0 /\
                            eligibleAt (Date_now w t0) item = true).
  { intros j Hj. destruct (Hin j Hj) as (_ & item & t0 & Hl & Ht0 & He).
    replace (j - 0) with j in Hl by lia. eauto. }
  destruct (take_eligible_props q l MAX_CONCURRENT_REQUESTS Hs) as [Hnd Hlt].
  { intros j Hj. destruct (Hin' j Hj) as (item & _ & Hl & _). eauto. }
  destruct (processItems_spec (take MAX_CONCURRENT_REQUESTS l) q
              (mkState (kv s) (puts s) t1) Hnd Hlt)
    as (q' & s' & new & Hrun & Hlen & Hout & Hproc & Hnil & Hkvq & Hputs & Hkv & Hnew & Ht & Hkeys).
  simpl in *.
  destruct q as [|item0 rest].
  - (* empty or absent queue: early return *)
    exists l, t1, [], s, []. unfold eligibleItems.
    assert (l = []) as ->.
    { destruct l as [|j l']; [reflexivity|].
      destruct (Hin' j) as (item & _ & Hl & _); [left | inversion Hl]. }
    split; [exact Hel|]. split; [exact Hs|]. split; [exact Hin'|].
    split; [exact Hp|].
    unfold processQueue. unfold bind at 1. rewrite (get_queue_run s [] Hq). simpl.
    rewrite app_nil_r. repeat split; try done.
    intros j Hj. inversion Hj.
  - exists l, t1, q', s', new. unfold eligibleItems.
    split; [exact Hel|]. split; [exact Hs|]. split; [exact Hin'|].
    split; [intros j it Hj Hst; apply (Hp j it Hj Hst)|].
    unfold processQueue. unfold bind at 1. rewrite (get_queue_run s _ Hq). simpl.
    unfold bind at 1. unfold eligibleItems. rewrite Hel.
    unfold bind at 1. rewrite Hrun. unfold ret.
    split; [reflexivity|].
    assert (Hproc' : forall j, j ∈ take MAX_CONCURRENT_REQUESTS l ->
              exists item t, (item0 :: rest) !! j = Some item /\ tick s <= t /\
                             q' !! j = Some (finalItem w t item)).
    { intros j Hj. destruct (Hproc j Hj) as (it & t & H1 & H2 & H3).
      exists it, t. repeat split; auto. lia. }
    destruct (take MAX_CONCURRENT_REQUESTS l) as [|j0 b] eqn:Hb.
    + specialize (Hnil eq_refl). subst s'. simpl in *.
      assert (Hn : new = []).
      { apply (app_inv_head (puts s)). rewrite app_nil_r. symmetry. exact Hputs. }
      simpl in Hrun. unfold ret in Hrun. injection Hrun as <-.
      split; [unfold queueOf; simpl; exact Hq|].
      repeat split; try done.
    + assert (Hk : kv s' !! "summary_queue" = Some (VQueue q')) by (apply Hkvq; discriminate).
      split; [unfold queueOf; rewrite Hk; reflexivity|].
      split; [exact Hlen|]. split; [exact Hout|]. split; [exact Hproc'|].
      split; [exact Hputs|]. split; [exact Hkv|]. split; [discriminate|].
      split; [intros _; apply Hnew; discriminate | exact Hkeys].
Qed.

End Facts.

(** * The claims *)

Lemma eligibleFrom_all_pending (w : World) (q : list QueueItem) :
  Forall (fun item => status item = pending) q ->
  forall (i : nat) (s : State), eligibleFrom w i q s = (Ok (seq i (length q)), s).
Proof.
  induction 1 as [|item rest Hst _ IH]; intros i s; [reflexivity|].
  simpl. unfold bind at 1. unfold isEligible. rewrite Hst. unfold ret at 1.
  unfold bind at 1. rewrite IH. reflexivity.
Qed.

Lemma eligibleFrom_exact (w : World) (q : list QueueItem) :
  forall (i : nat) (s : State),
  exists l t',
    eligibleFrom w i q s = (Ok l, mkState (kv s) (puts s) t') /\
    tick s <= t' /\
    (forall j, j ∈ l -> i <= j) /\
    (forall j item, q !! j = Some item ->
       exists t0, tick s <= t0 <= t' /\
                  (i + j ∈ l <-> eligibleAt (Date_now w t0) item = true)).
Proof.
  induction q as [|item rest IH]; intros i s.
  - exists [], (tick s). destruct s; simpl. unfold ret. simpl.
    split; [reflexivity|]. split; [lia|]. split.
    + intros j Hj. inversion Hj.
    + intros j it Hj. inversion Hj.
  - simpl. destruct (isEligible_run w item s) as (t1 & He & Ht1).
    destruct (IH (S i) (mkState (kv s) (puts s) t1)) as (r & t2 & Hr & Ht2 & Hlow & Hex).
    simpl in *.
    exists (if eligibleAt (Date_now w (tick s)) item then i :: r else r), t2.
    unfold bind at 1. rewrite He. unfold bind at 1. rewrite Hr. unfold ret.
    split; [reflexivity|]. split; [lia|].
    assert (Hi : i ∉ r) by (intros Hin; apply Hlow in Hin; lia).
    split.
    + intros j Hj. destruct (eligibleAt _ item).
      * apply elem_of_cons in Hj as [->|Hj]; [lia|]. apply Hlow in Hj. lia.
      * apply Hlow in Hj. lia.
    + intros j it Hj. destruct j as [|j]; simpl in Hj.
      * injection Hj as <-. exists (tick s). split; [lia|].
        replace (i + 0) with i by lia.
        destruct (eligibleAt (Date_now w (tick s)) item).
        -- split; [reflexivity | intros _; left].
        -- split; [contradiction | discriminate].
      * destruct (Hex j it Hj) as (t0 & Ht0 & Hiff).
        exists t0. split; [lia|].
        replace (i + S j) with (S i + j) by lia.
        rewrite <- Hiff. destruct (eligibleAt (Date_now w (tick s)) item); [| reflexivity].
        split; [| right; assumption].
        intros Hin. apply elem_of_cons in Hin as [Heq|Hin]; [lia | exact Hin].
Qed.

(** C2: one invocation of processQueue runs the loop on the first
    min(MAX_CONCURRENT_REQUESTS, number of eligible items) positions of the
    filter's result.  That result lists positions of the queue in
    increasing order, and a position is in it exactly when its item passes
    the filter predicate at the clock reading the filter made for it (a
    pending item always, a completed or processing item never).  The items
    of the slice are processed and no other item changes.  With 7 pending
    items the 5 first leave [pending] and the 2 last stay as they were. *)
Theorem processQueue_batch_cap (w : World) (s : State) (q : list QueueItem) :
  queueOf s = Some q ->
  exists eligible s1 s' q',
    eligibleItems w q s = (Ok eligible, s1) /\
    StronglySorted lt eligible /\
    (forall j, j ∈ eligible -> exists item, q !! j = Some item) /\
    (forall j item, q !! j = Some item ->
       exists t0, tick s <= t0 <= tick s1 /\
                  (j ∈ eligible <-> eligibleAt (Date_now w t0) item = true)) /\
    (forall j item, q !! j = Some item ->
       (status item = pending -> j ∈ eligible) /\
       (status item = completed \/ status item = processing \/
        (status item = failed /\ (MAX_RETRIES <= attempts item)%Z) ->
        j ∉ eligible)) /\
    processQueue w s = (Ok tt, s') /\
    queueOf s' = Some q' /\
    length (take MAX_CONCURRENT_REQUESTS eligible)
      = Nat.min MAX_CONCURRENT_REQUESTS (length eligible) /\
    length (take MAX_CONCURRENT_REQUESTS eligible) <= MAX_CONCURRENT_REQUESTS /\
    (forall i, i ∈ take MAX_CONCURRENT_REQUESTS eligible ->
       exists item item', q !! i = Some item /\ q' !! i = Some item' /\
                          processed item item') /\
    (forall i, i ∉ take MAX_CONCURRENT_REQUESTS eligible -> q' !! i = q !! i) /\
    (length q = 7 -> Forall (fun item => status item = pending) q ->
       take MAX_CONCURRENT_REQUESTS eligible = [0; 1; 2; 3; 4] /\
       (forall i, i < 5 ->
          exists item', q' !! i = Some item' /\ status item' <> pending) /\
       (forall i item, 5 <= i -> q !! i = Some item ->
          q' !! i = Some item /\ status item = pending)).
Proof.
  intros Hq.
  destruct (processQueue_spec w s q Hq) as
    (l & t1 & q' & s' & new & Hel & Hs & Hin & Hp & Hrun & Hq' & Hlen & Hout & Hproc & _).
  destruct (eligibleFrom_exact w q 0 s) as (l0 & t0' & Hel0 & _ & _ & Hexact).
  unfold eligibleItems in Hel. rewrite Hel in Hel0. injection Hel0 as <- <-.
  fold (eligibleItems w q s) in Hel.
  exists l, (mkState (kv s) (puts s) t1), s', q'.
  split; [exact Hel|]. split; [exact Hs|].
  split.
  { intros j Hj. destruct (Hin j Hj) as (item & _ & Hj1 & _). eauto. }
  split.
  { intros j item Hj. destruct (Hexact j item Hj) as (t0 & Ht0 & Hiff).
    exists t0. split; [exact Ht0 | exact Hiff]. }
  split.
  { intros j item Hj. destruct (Hexact j item Hj) as (t0 & _ & Hiff). simpl in Hiff.
    split.
    - intros Hst. apply Hiff. unfold eligibleAt. rewrite Hst. reflexivity.
    - intros Hst Hj'. apply Hiff in Hj'. unfold eligibleAt in Hj'.
      destruct Hst as [H|[H|[H Hge]]]; rewrite H in Hj'; try discriminate.
      destruct (Z.ltb_spec (attempts item) MAX_RETRIES); [lia | discriminate]. }
  split; [exact Hrun|]. split; [exact Hq'|].
  split; [apply length_take|].
  split; [rewrite length_take; lia|].
  assert (Hproc' : forall i, i ∈ take MAX_CONCURRENT_REQUESTS l ->
            exists item item', q !! i = Some item /\ q' !! i = Some item' /\
                               processed item item').
  { intros i Hi. destruct (Hproc i Hi) as (item & t & Hi1 & _ & Hi2).
    exists item, (finalItem w t item). split; [exact Hi1|]. split; [exact Hi2|].
    apply finalItem_processed. }
  split; [exact Hproc'|]. split; [exact Hout|].
  intros H7 Hall.
  assert (Hl : l = [0; 1; 2; 3; 4; 5; 6]).
  { unfold eligibleItems in Hel. rewrite (eligibleFrom_all_pending w q Hall) in Hel.
    rewrite H7 in Hel. simpl in Hel. congruence. }
  subst l. simpl in *.
  split; [reflexivity|]. split.
  - intros i Hi.
    assert (Hi' : i ∈ [0; 1; 2; 3; 4]).
    { do 5 (destruct i as [|i]; [repeat constructor|]). lia. }
    destruct (Hproc' i Hi') as (item & item' & _ & Hi2 & Hp').
    exists item'. split; [exact Hi2|].
    destruct Hp' as (_ & _ & _ & [Hc|Hc] & _); rewrite Hc; discriminate.
  - intros i item Hi Hitem. split.
    + rewrite Hout; [exact Hitem|].
      intros Hi'. repeat (apply elem_of_cons in Hi' as [->|Hi']; [lia|]).
      inversion Hi'.
    + rewrite Forall_forall in Hall. apply Hall.
      apply list_elem_of_lookup. eauto.
Qed.

Lemma processQueue_batch_cap_witness :
  queueOf (storeWith sevenPending) = Some sevenPending /\
  exists s' q',
    processQueue offlineWorld (storeWith sevenPending) = (Ok tt, s') /\
    queueOf s' = Some q' /\
    (forall i, 5 <= i -> q' !! i = sevenPending !! i).
Proof.
  split; [reflexivity|].
  destruct (processQueue_batch_cap offlineWorld (storeWith sevenPending) sevenPending)
    as (l & s1 & s' & q' & _ & _ & _ & _ & _ & Hrun & Hq' & _ & _ & _ & Hout & H7);
    [reflexivity|].
  exists s', q'. split; [exact Hrun|]. split; [exact Hq'|].
  intros i Hi. apply Hout.
  destruct H7 as (Hb & _); [reflexivity | repeat constructor |].
  rewrite Hb. intros Hi'.
  repeat (apply elem_of_cons in Hi' as [->|Hi']; [lia|]). inversion Hi'.
Defined.

(** C10: in one invocation of processQueue every item outside the
    selected slice is left as it was (status, attempts and lastAttempt
    included), the queue keeps its length and the order of its documents,
    and when nothing is selected, which covers an absent or empty stored
    queue, no put is made and the store is unchanged. *)
Theorem processQueue_frame (w : World) (s : State) (q : list QueueItem) :
  queueOf s = Some q ->
  exists eligible s1 s' q',
    eligibleItems w q s = (Ok eligible, s1) /\
    processQueue w s = (Ok tt, s') /\
    queueOf s' = Some q' /\
    (forall i item, i ∉ take MAX_CONCURRENT_REQUESTS eligible ->
       q !! i = Some item ->
       exists item', q' !! i = Some item' /\ item' = item /\
                     status item' = status item /\
                     attempts item' = attempts item /\
                     lastAttempt item' = lastAttempt item) /\
    length q' = length q /\
    docs q' = docs q /\
    rawTextUrl <$> q' = rawTextUrl <$> q /\
    (take MAX_CONCURRENT_REQUESTS eligible = [] ->
       puts s' = puts s /\ kv s' = kv s) /\
    (q = [] -> puts s' = puts s /\ kv s' = kv s).
Proof.
  intros Hq.
  destruct (processQueue_spec w s q Hq) as
    (l & t1 & q' & s' & new & Hel & Hs & Hin & Hp & Hrun & Hq' & Hlen & Hout
       & Hproc & Hputs & Hkv & Hnil & _).
  exists l, (mkState (kv s) (puts s) t1), s', q'.
  split; [exact Hel|]. split; [exact Hrun|]. split; [exact Hq'|].
  assert (Hfield : forall (f : QueueItem -> string),
            (forall item item', processed item item' -> f item' = f item) ->
            f <$> q' = f <$> q).
  { intros f Hf. apply list_eq. intros i. rewrite !list_lookup_fmap.
    destruct (decide (i ∈ take MAX_CONCURRENT_REQUESTS l)) as [Hi|Hi].
    - destruct (Hproc i Hi) as (item & t & Hi1 & _ & Hi2).
      rewrite Hi1, Hi2. simpl. f_equal. apply Hf, finalItem_processed.
    - rewrite (Hout i Hi). reflexivity. }
  assert (Hnone : take MAX_CONCURRENT_REQUESTS l = [] -> puts s' = puts s /\ kv s' = kv s).
  { intros Hb. rewrite Hputs, Hkv, (Hnil Hb), app_nil_r. split; reflexivity. }
  split; [| split; [exact Hlen | split; [| split; [| split; [exact Hnone|]]]]].
  - intros i item Hi Hitem. exists item. rewrite (Hout i Hi). auto.
  - apply Hfield. intros item item' Hp'. apply Hp'.
  - apply Hfield. intros item item' Hp'. apply Hp'.
  - intros ->. apply Hnone.
    destruct l as [|j l']; [reflexivity|].
    destruct (Hin j) as (item & _ & Hl & _); [left | inversion Hl].
Qed.

Lemma processQueue_frame_witness :
  queueOf emptyStore = Some [] /\
  exists s', processQueue offlineWorld emptyStore = (Ok tt, s') /\
             puts s' = puts emptyStore /\ kv s' = kv emptyStore.
Proof.
  split; [reflexivity|].
  destruct (processQueue_frame offlineWorld emptyStore [])
    as (l & s1 & s' & q' & _ & Hrun & _ & _ & _ & _ & _ & _ & Hempty);
    [reflexivity|].
  exists s'. split; [exact Hrun|]. apply Hempty. reflexivity.
Defined.

(** ** Single turns under known answers of the world *)

Lemma turnOutcome_unfold (w : World) (t : nat) (item : QueueItem) :
  turnOutcome w t item =
  match fetch_text w t (rawTextUrl item) with
  | Throw e => Throw e
  | Ok resp =>
      match text resp with
      | Throw e => Throw e
      | Ok txt =>
          match AI_run w (S t) AI_MODEL (messagesCF txt) with
          | Throw e => Throw e
          | Ok (Some r) => Ok (if truthy r then r else "failed")
          | Ok None => Ok "failed"
          end
      end
  end.
Proof.
  unfold turnOutcome, fetchAndSummarize, summarizeEO, summarizeEOCF. run_js.
  destruct (fetch_text w t (rawTextUrl item)) as [resp|e]; simpl; [| reflexivity].
  destruct (text resp) as [txt|e]; simpl; [| reflexivity].
  destruct (AI_run w (S t) AI_MODEL (messagesCF txt)) as [[r|]|e]; simpl; try reflexivity.
  destruct (truthy r); reflexivity.
Qed.

Lemma turnFails_outcome (w : World) (t : nat) (item : QueueItem) (now : Z) :
  turnFails w t item ->
  exists e, turnOutcome w t (markProcessing item now) = Throw e.
Proof.
  rewrite turnOutcome_unfold. simpl.
  intros [(e & H)|[(resp & e & H & Ht)|(resp & txt & e & H & Ht & Ha)]];
    rewrite H; [eauto|..]; rewrite Ht; [eauto|]. rewrite Ha. eauto.
Qed.

Lemma processQueue_single (w : World) (s : State) (item : QueueItem) :
  queueOf s = Some [item] -> status item = pending ->
  exists t',
    processQueue w s =
      (Ok tt, mkState (applyPuts (kv s) (turnPuts w (tick s) [item] 0 item))
                      (puts s ++ turnPuts w (tick s) [item] 0 item) t').
Proof.
  intros Hq Hst.
  destruct (processItem_run w [item] 0 item s eq_refl) as (t' & Hrun & _).
  exists t'. unfold processQueue. unfold bind at 1. rewrite (get_queue_run s _ Hq).
  simpl. unfold bind at 1. unfold eligibleItems.
  rewrite (eligibleFrom_all_pending w [item]); [| repeat constructor; exact Hst].
  simpl. unfold bind at 1. unfold bind at 1. rewrite Hrun. reflexivity.
Qed.

(** C3: from a queue holding one pending item with no attempt, when the
    raw text is fetched and read and the hosted model answers with a
    non-empty text, processQueue leaves the item completed with one
    attempt and the summary is stored under the summary key of its
    document (for document A, under summary:A). *)
Theorem processQueue_single_success (w : World) (s : State) (item : QueueItem)
  (resp : Response) (txt summary : string) :
  queueOf s = Some [item] ->
  status item = pending -> attempts item = 0%Z ->
  fetch_text w (S (tick s)) (rawTextUrl item) = Ok resp ->
  text resp = Ok txt ->
  AI_run w (S (S (tick s))) AI_MODEL (messagesCF txt) = Ok (Some summary) ->
  truthy summary = true ->
  exists s',
    processQueue w s = (Ok tt, s') /\
    queueOf s' = Some [mkQueueItem (documentNumber item) (rawTextUrl item)
                                   completed 1 (Some (Date_now w (tick s)))] /\
    kv s' !! summaryKey (documentNumber item) = Some (VText summary).
Proof.
  intros Hq Hst Hatt Hf Ht Ha Htr.
  destruct item as [doc url st att la]. simpl in Hst, Hatt, Hf |- *. subst st att.
  destruct (processQueue_single w s _ Hq eq_refl) as (t' & Hrun).
  eexists. split; [exact Hrun|].
  assert (Hout : turnOutcome w (S (tick s))
                   (markProcessing (mkQueueItem doc url pending 0 la) (Date_now w (tick s)))
                 = Ok summary).
  { rewrite turnOutcome_unfold. simpl. rewrite Hf, Ht, Ha, Htr. reflexivity. }
  unfold queueOf, turnPuts, finalItem, turnStatus, applyPuts. rewrite Hout. simpl.
  rewrite lookup_insert_eq. split; [reflexivity|].
  rewrite lookup_insert_ne by (apply not_eq_sym, summaryKey_not_queue).
  apply lookup_insert_eq.
Qed.

Lemma processQueue_single_success_witness :
  exists s',
    processQueue onlineWorld (storeWith [pendingItem "A"]) = (Ok tt, s') /\
    queueOf s' = Some [mkQueueItem "A" (rawTextUrl (pendingItem "A"))
                                   completed 1 (Some 1700000000000%Z)] /\
    kv s' !! "summary:A" = Some (VText "## Summary").
Proof.
  apply (processQueue_single_success onlineWorld (storeWith [pendingItem "A"])
           (pendingItem "A") (mkResponse true "OK" (Ok "By the authority vested in me"))
           "By the authority vested in me" "## Summary");
    reflexivity.
Defined.

Lemma finalItem_failed (w : World) (t : nat) (item : QueueItem) :
  turnFails w (S t) item ->
  finalItem w t item =
    mkQueueItem (documentNumber item) (rawTextUrl item) failed
                (attempts item + 1)%Z (Some (Date_now w t)) /\
  forall q i,
    turnPuts w t q i item =
      [("summary_queue", VQueue (<[i := markProcessing item (Date_now w t)]> q));
       ("summary_queue", VQueue (<[i := finalItem w t item]> q))].
Proof.
  intros Hf. destruct (turnFails_outcome w (S t) item (Date_now w t) Hf) as [e He].
  unfold turnPuts, finalItem, turnStatus. rewrite He. split; reflexivity.
Qed.

(** C4: processQueue never throws and every selected item gets its turn,
    whatever happened in the turns before it; a turn whose raw-text fetch,
    body read or generator call throws persists the queue twice and nothing
    else, and leaves the item failed with one more attempt and the clock
    reading as lastAttempt.  For the single pending item with no attempt,
    the queue ends as that one failed item with one attempt and no summary
    is stored. *)
Theorem processQueue_failure_contained (w : World) :
  (forall s q, queueOf s = Some q ->
     exists eligible s1 s' q',
       eligibleItems w q s = (Ok eligible, s1) /\
       processQueue w s = (Ok tt, s') /\
       queueOf s' = Some q' /\
       forall i, i ∈ take MAX_CONCURRENT_REQUESTS eligible ->
         exists item t, q !! i = Some item /\ q' !! i = Some (finalItem w t item) /\
                        (status (finalItem w t item) = completed \/
                         status (finalItem w t item) = failed) /\
                        (turnFails w (S t) item -> status (finalItem w t item) = failed)) /\
  (forall q i item s, q !! i = Some item -> turnFails w (S (tick s)) item ->
     exists s',
       let item1 := markProcessing item (Date_now w (tick s)) in
       let item2 := mkQueueItem (documentNumber item) (rawTextUrl item) failed
                                (attempts item + 1)%Z (Some (Date_now w (tick s))) in
       processItem w q i s = (Ok (<[i := item2]> q), s') /\
       puts s' = (puts s ++ [("summary_queue", VQueue (<[i := item1]> q));
                             ("summary_queue", VQueue (<[i := item2]> q))])%list /\
       kv s' = <["summary_queue" := VQueue (<[i := item2]> q)]>
                 (<["summary_queue" := VQueue (<[i := item1]> q)]> (kv s))) /\
  (forall s item, queueOf s = Some [item] ->
     status item = pending -> attempts item = 0%Z ->
     turnFails w (S (tick s)) item ->
     exists s' rest,
       processQueue w s = (Ok tt, s') /\
       queueOf s' = Some [mkQueueItem (documentNumber item) (rawTextUrl item)
                                      failed 1 (Some (Date_now w (tick s)))] /\
       puts s' = (puts s ++ rest)%list /\
       Forall (fun p => p.1 = "summary_queue") rest /\
       kv s' !! summaryKey (documentNumber item) = kv s !! summaryKey (documentNumber item)).
Proof.
  split; [| split].
  - intros s q Hq.
    destruct (processQueue_spec w s q Hq) as
      (l & t1 & q' & s' & new & Hel & _ & _ & _ & Hrun & Hq' & _ & _ & Hproc & _).
    exists l, (mkState (kv s) (puts s) t1), s', q'.
    split; [exact Hel|]. split; [exact Hrun|]. split; [exact Hq'|].
    intros i Hi. destruct (Hproc i Hi) as (item & t & Hi1 & _ & Hi2).
    exists item, t. split; [exact Hi1|]. split; [exact Hi2|]. split.
    + apply (finalItem_processed w t item).
    + intros Hf. destruct (finalItem_failed w t item Hf) as [-> _]. reflexivity.
  - intros q i item s Hi Hf.
    destruct (processItem_run w q i item s Hi) as (t' & Hrun & _).
    destruct (finalItem_failed w (tick s) item Hf) as [Hfin Hputs].
    rewrite Hputs, Hfin in Hrun. eexists. simpl.
    split; [exact Hrun|]. split; reflexivity.
  - intros s item Hq Hst Hatt Hf.
    destruct (processQueue_single w s item Hq Hst) as (t' & Hrun).
    destruct (finalItem_failed w (tick s) item Hf) as [Hfin Hputs].
    rewrite Hputs, Hfin in Hrun. eexists _, _.
    split; [exact Hrun|]. simpl. unfold queueOf. simpl.
    rewrite lookup_insert_eq, Hatt. split; [reflexivity|].
    split; [reflexivity|]. split; [repeat constructor|].
    rewrite !lookup_insert_ne by (apply not_eq_sym, summaryKey_not_queue).
    reflexivity.
Qed.

Lemma processQueue_failure_contained_witness :
  queueOf (storeWith [pendingItem "A"]) = Some [pendingItem "A"] /\
  turnFails offlineWorld 1 (pendingItem "A") /\
  exists s',
    processQueue offlineWorld (storeWith [pendingItem "A"]) = (Ok tt, s') /\
    queueOf s' = Some [mkQueueItem "A" (rawTextUrl (pendingItem "A"))
                                   failed 1 (Some 1700000000000%Z)] /\
    kv s' !! "summary:A" = None.
Proof.
  assert (Hf : turnFails offlineWorld 1 (pendingItem "A")).
  { left. exists "offline". reflexivity. }
  split; [reflexivity|]. split; [exact Hf|].
  destruct (processQueue_failure_contained offlineWorld) as (_ & _ & Hone).
  destruct (Hone (storeWith [pendingItem "A"]) (pendingItem "A"))
    as (s' & rest & Hrun & Hq' & _ & _ & Hkey); try reflexivity; [exact Hf|].
  exists s'. split; [exact Hrun|]. split; [exact Hq'|]. exact Hkey.
Defined.

(** C9 (the code at a failing input): the raw-text URL answers 404 with an
    error page; processQueue does not look at the status of the response,
    summarizes the error page, stores that summary and marks the item
    completed. *)
Theorem processQueue_ignores_fetch_status :
  fst (processQueue notFoundWorld (storeWith [pendingItem "A"])) = Ok tt /\
  queueOf (snd (processQueue notFoundWorld (storeWith [pendingItem "A"])))
    = Some [mkQueueItem "A" (rawTextUrl (pendingItem "A"))
                        completed 1 (Some 1700000000000%Z)] /\
  kv (snd (processQueue notFoundWorld (storeWith [pendingItem "A"]))) !! "summary:A"
    = Some (VText "## Summary of a missing page").
Proof. repeat split; vm_compute; reflexivity. Qed.

(** The same for every world: the [ok] flag of the response plays no part
    in the outcome of a turn. *)
Lemma turnOutcome_ignores_ok (w : World) (t : nat) (item : QueueItem)
  (resp : Response) (txt summary : string) :
  fetch_text w t (rawTextUrl item) = Ok resp ->
  ok resp = false -> text resp = Ok txt ->
  AI_run w (S t) AI_MODEL (messagesCF txt) = Ok (Some summary) ->
  truthy summary = true ->
  turnOutcome w t item = Ok summary.
Proof.
  intros Hf _ Ht Ha Htr. rewrite turnOutcome_unfold, Hf, Ht, Ha, Htr. reflexivity.
Qed.

(** ** The two backends *)

Lemma summarizeEOCF_outcomes (w : World) (txt : string) (s : State) :
  snd (summarizeEOCF w txt s) = mkState (kv s) (puts s) (S (tick s)) /\
  fst (summarizeEOCF w txt s) =
    match AI_run w (tick s) AI_MODEL (messagesCF txt) with
    | Throw e => Throw e
    | Ok (Some r) => Ok (if truthy r then r else "failed")
    | Ok None => Ok "failed"
    end.
Proof.
  unfold summarizeEOCF. run_js.
  destruct (AI_run w (tick s) AI_MODEL (messagesCF txt)) as [[r|]|e]; simpl; auto.
  destruct (truthy r); auto.
Qed.

Lemma summarizeEOClaude_outcomes (w : World) (txt : string) (s : State) :
  snd (summarizeEOClaude w txt s) = mkState (kv s) (puts s) (S (tick s)) /\
  (fst (summarizeEOClaude w txt s) = Throw "Failed to generate summary" \/
   exists resp r,
     fetch_claude w (tick s) (CLAUDE_API_URL w) (CLAUDE_API_KEY w) (instructions ++ txt)
       = Ok resp /\
     c_ok resp = true /\ c_text resp = Ok r /\
     fst (summarizeEOClaude w txt s) = Ok r).
Proof.
  unfold summarizeEOClaude. run_js.
  destruct (fetch_claude w (tick s) _ _ _) as [resp|e] eqn:Hf; simpl; [| auto].
  destruct (c_ok resp) eqn:Hok; simpl.
  - destruct (c_text resp) as [r|e] eqn:Ht; simpl; [| auto].
    split; [reflexivity|]. right. exists resp, r. auto.
  - destruct (c_error resp) as [[m|]|e]; simpl; auto.
Qed.

(** C8 (the code at a failing input): when the hosted model answers without
    a [response] field, summarizeEOCF does not throw: it returns the text
    failed, and processQueue stores that text as the summary of the
    document and marks the item completed. *)
Theorem summarizeEOCF_returns_sentinel :
  fst (summarizeEOCF silentModelWorld "By the authority vested in me" emptyStore)
    = Ok "failed" /\
  fst (summarizeEO silentModelWorld "By the authority vested in me" emptyStore)
    = Ok "failed" /\
  queueOf (snd (processQueue silentModelWorld (storeWith [pendingItem "A"])))
    = Some [mkQueueItem "A" (rawTextUrl (pendingItem "A"))
                        completed 1 (Some 1700000000000%Z)] /\
  kv (snd (processQueue silentModelWorld (storeWith [pendingItem "A"]))) !! "summary:A"
    = Some (VText "failed").
Proof. repeat split; vm_compute; reflexivity. Qed.

(** ** The retry gate *)

Lemma eligibleAt_failed (now : Z) (item : QueueItem) :
  status item = failed -> (attempts item < MAX_RETRIES)%Z ->
  eligibleAt now item = true <->
  lastAttempt item = None \/ lastAttempt item = Some 0%Z \/
  exists t, lastAttempt item = Some t /\ (RETRY_DELAY_MS <= now - t)%Z.
Proof.
  intros Hst Hlt. unfold eligibleAt. rewrite Hst.
  destruct (Z.ltb_spec (attempts item) MAX_RETRIES) as [_|]; [| lia]. simpl.
  destruct (lastAttempt item) as [t|]; [| split; auto].
  destruct (Z.eqb_spec t 0) as [->|Hne]; simpl; [split; auto|].
  destruct (Z.leb_spec RETRY_DELAY_MS (now - t)) as [Hle|Hgt]; split.
  - intros _. right. right. eauto.
  - reflexivity.
  - discriminate.
  - intros [H|[H|(t' & H & Hle)]]; try congruence.
    injection H as <-. lia.
Qed.

(** C6: with the clock at or after RETRY_DELAY_MS (one minute after the
    epoch), a failed item with attempts < MAX_RETRIES is eligible if and
    only if its lastAttempt is unset or the clock reading minus lastAttempt
    is at least RETRY_DELAY_MS.  An item failed at T is not eligible when
    the clock reads T + RETRY_DELAY_MS - 1, and an invocation of
    processQueue during which every clock reading is below
    T + RETRY_DELAY_MS leaves it as it is. *)
Theorem failed_item_retry_gate (w : World) (item : QueueItem) (s : State) :
  status item = failed -> (attempts item < MAX_RETRIES)%Z ->
  (RETRY_DELAY_MS <= Date_now w (tick s))%Z ->
  (exists b s',
     isEligible w item s = (Ok b, s') /\
     (b = true <->
      lastAttempt item = None \/
      exists t, lastAttempt item = Some t /\
                (RETRY_DELAY_MS <= Date_now w (tick s) - t)%Z)) /\
  (forall T, lastAttempt item = Some T ->
     Date_now w (tick s) = (T + RETRY_DELAY_MS - 1)%Z ->
     fst (isEligible w item s) = Ok false) /\
  (forall T q i, lastAttempt item = Some T ->
     (forall k, tick s <= k -> (Date_now w k < T + RETRY_DELAY_MS)%Z) ->
     queueOf s = Some q -> q !! i = Some item ->
     exists s' q', processQueue w s = (Ok tt, s') /\ queueOf s' = Some q' /\
                   q' !! i = Some item).
Proof.
  intros Hst Hlt Hclock.
  assert (Hno : forall T now, T <> 0%Z -> lastAttempt item = Some T ->
                  (now < T + RETRY_DELAY_MS)%Z -> eligibleAt now item = false).
  { intros T now HT Hla Hnow. apply not_true_is_false. intros He.
    apply (eligibleAt_failed now item Hst Hlt) in He
      as [H|[H|(t & H & Hle)]]; try congruence.
    rewrite Hla in H. injection H as <-. lia. }
  split; [| split].
  - destruct (isEligible_run w item s) as (t' & Hrun & _).
    eexists _, _. split; [exact Hrun|].
    rewrite (eligibleAt_failed _ item Hst Hlt). split.
    + intros [H|[H|H]]; [left; exact H | right | right; exact H].
      exists 0%Z. split; [exact H | lia].
    + intros [H|H]; [left; exact H | right; right; exact H].
  - intros T Hla Hnow. destruct (isEligible_run w item s) as (t' & Hrun & _).
    rewrite Hrun. simpl. f_equal. apply (Hno T); [lia | exact Hla | lia].
  - intros T q i Hla Hbelow Hq Hi.
    assert (HT : T <> 0%Z) by (specialize (Hbelow (tick s) (Nat.le_refl _)); lia).
    destruct (processQueue_spec w s q Hq) as
      (l & t1 & q' & s' & new & _ & _ & Hin & _ & Hrun & Hq' & _ & Hout & _).
    exists s', q'. split; [exact Hrun|]. split; [exact Hq'|].
    rewrite Hout; [exact Hi|]. intros Hi'.
    apply elem_of_take in Hi' as (k & Hk & _).
    destruct (Hin i) as (item' & t0 & Hi0 & Ht0 & He).
    { apply list_elem_of_lookup. eauto. }
    rewrite Hi in Hi0. injection Hi0 as <-.
    rewrite (Hno T (Date_now w t0)) in He; auto. discriminate.
Qed.

Lemma failed_item_retry_gate_witness :
  status (failedItem "A" 1 (Some 1699999940001%Z)) = failed /\
  (attempts (failedItem "A" 1 (Some 1699999940001%Z)) < MAX_RETRIES)%Z /\
  (RETRY_DELAY_MS <= Date_now offlineWorld (tick emptyStore))%Z /\
  Date_now offlineWorld (tick emptyStore) = (1699999940001 + RETRY_DELAY_MS - 1)%Z /\
  fst (isEligible offlineWorld (failedItem "A" 1 (Some 1699999940001%Z)) emptyStore)
    = Ok false.
Proof.
  assert (Hclock : (RETRY_DELAY_MS <= Date_now offlineWorld (tick emptyStore))%Z).
  { unfold RETRY_DELAY_MS. simpl. lia. }
  split; [reflexivity|]. split; [reflexivity|]. split; [exact Hclock|].
  split; [reflexivity|].
  destruct (failed_item_retry_gate offlineWorld
              (failedItem "A" 1 (Some 1699999940001%Z)) emptyStore eq_refl eq_refl Hclock)
    as (_ & Hscenario & _).
  apply (Hscenario 1699999940001%Z); reflexivity.
Defined.

(** ** enqueueNew and updateCache *)

Lemma try_catch_rethrow {A} (m : M A) (s : State) :
  try_catch m (fun error => throw error) s = m s.
Proof. unfold try_catch, throw. destruct (m s) as [[a|e] s']; reflexivity. Qed.

Lemma enqueueNew_run (s : State) (q : list QueueItem) (os : list ExecutiveOrder) :
  queueOf s = Some q ->
  enqueueNew os s =
    (Ok tt,
     match newItemsFor q os with
     | [] => s
     | _ :: _ =>
         mkState (<["summary_queue" := VQueue (q ++ newItemsFor q os)%list]> (kv s))
                 (puts s ++ [("summary_queue", VQueue (q ++ newItemsFor q os)%list)])
                 (tick s)
     end).
Proof.
  intros Hq. unfold enqueueNew. unfold bind at 1. rewrite (get_queue_run s q Hq).
  fold (newItemsFor q os). destruct (newItemsFor q os); reflexivity.
Qed.

Lemma enqueueNew_queue (s : State) (q : list QueueItem) (os : list ExecutiveOrder) :
  queueOf s = Some q ->
  queueOf (snd (enqueueNew os s)) = Some (q ++ newItemsFor q os)%list.
Proof.
  intros Hq. rewrite (enqueueNew_run s q os Hq). simpl.
  destruct (newItemsFor q os) as [|x l].
  - rewrite app_nil_r. exact Hq.
  - unfold queueOf. simpl. rewrite lookup_insert_eq. reflexivity.
Qed.

Lemma newItemsFor_fresh (q : list QueueItem) (os : list ExecutiveOrder) (item : QueueItem) :
  item ∈ newItemsFor q os ->
  (documentNumber item ∉ docs q) /\ status item = pending /\ attempts item = 0%Z /\
  lastAttempt item = None /\
  exists order, order ∈ os /\ item = newQueueItem order.
Proof.
  unfold newItemsFor. intros Hin.
  apply list_elem_of_fmap in Hin as (order & -> & Hin).
  apply list_elem_of_filter in Hin as [Hfresh Hin].
  simpl. split; [| eauto 6].
  intros Hd. apply Hfresh. apply elem_of_list_to_set. exact Hd.
Qed.

Lemma newItemsFor_NoDup (q : list QueueItem) (os : list ExecutiveOrder) :
  NoDup (docs q) -> NoDup (document_number <$> os) ->
  NoDup (docs (q ++ newItemsFor q os)%list).
Proof.
  intros Hq Hos. unfold docs. rewrite fmap_app. apply NoDup_app.
  split; [exact Hq|]. split.
  - intros d Hd Hnew. apply list_elem_of_fmap in Hnew as (item & -> & Hitem).
    apply newItemsFor_fresh in Hitem as [Hfresh _]. contradiction.
  - unfold newItemsFor. rewrite <- list_fmap_compose.
    apply (sublist_NoDup _ (document_number <$> os)); [exact Hos|].
    apply fmap_sublist. apply sublist_filter.
Qed.

Lemma fetchExecutiveOrders_store (w : World) (s : State) :
  exists r, fetchExecutiveOrders w s = (r, mkState (kv s) (puts s) (S (S (tick s)))).
Proof.
  unfold fetchExecutiveOrders. run_js.
  destruct (fetch_listing w (S (tick s)) _) as [resp|e]; simpl; [| eauto].
  destruct (l_ok resp); simpl; [| eauto].
  destruct (l_json resp) as [results|e]; simpl; [| eauto].
  destruct (mapOutcome normalize results); eauto.
Qed.

Lemma fetchExecutiveOrders_fails (w : World) (s : State) :
  listingFails w (S (tick s)) (listingUrl (today w (tick s))) ->
  exists e, fetchExecutiveOrders w s =
            (Throw e, mkState (kv s) (puts s) (S (S (tick s)))).
Proof.
  unfold fetchExecutiveOrders. run_js.
  intros [(e & H)|(resp & H & Hok)]; rewrite H; simpl; [eauto|].
  rewrite Hok. simpl. eauto.
Qed.

(** The state right after the snapshot is put. *)
Lemma updateCache_run (w : World) (summary : option bool) (s : State) :
  match fetchExecutiveOrders w s with
  | (Throw e, s1) => updateCache w summary s = (Throw e, s1)
  | (Ok os, s1) =>
      let snapshot := VSnapshot (mkCachedData (Date_now w (tick s1)) os) in
      let s2 := mkState (<["orders" := snapshot]> (kv s1))
                        (puts s1 ++ [("orders", snapshot)]) (S (tick s1)) in
      updateCache w summary s =
        match summary with
        | Some true => enqueueNew os s2
        | _ => (Ok tt, s2)
        end
  end.
Proof.
  destruct (fetchExecutiveOrders w s) as [[os|e] s1] eqn:Hf;
    unfold updateCache; rewrite try_catch_rethrow; unfold bind at 1; rewrite Hf;
    [| reflexivity].
  simpl. run_js. destruct summary as [[|]|]; reflexivity.
Qed.


(** C1: from a stored queue without two items of the same document (an
    absent or empty queue is one), any sequence of calls to enqueueNew on
    fetched order sets, in which the document number is the key of an
    order, leaves a queue without two items of the same document, however
    the inputs overlap.  Every call succeeds, keeps the items already
    queued in place, and appends pending items with no attempt only for
    documents that were not in the queue. *)
Theorem enqueueAll_no_duplicates (calls : list (list ExecutiveOrder))
  (s : State) (q : list QueueItem) :
  queueOf s = Some q ->
  NoDup (docs q) ->
  Forall (fun os => NoDup (document_number <$> os)) calls ->
  exists s' ext,
    enqueueAll calls s = (Ok tt, s') /\
    queueOf s' = Some (q ++ ext)%list /\
    NoDup (docs (q ++ ext)) /\
    (forall item, item ∈ ext ->
       (documentNumber item ∉ docs q) /\ status item = pending /\ attempts item = 0%Z).
Proof.
  revert s q. induction calls as [|os rest IH]; intros s q Hq Hnd Hall.
  - exists s, []. simpl. rewrite app_nil_r.
    split; [reflexivity|]. split; [exact Hq|]. split; [exact Hnd|].
    intros item Hin. inversion Hin.
  - apply Forall_cons in Hall as [Hos Hall].
    pose proof (enqueueNew_run s q os Hq) as Hrun.
    pose proof (enqueueNew_queue s q os Hq) as Hq1.
    pose proof (newItemsFor_NoDup q os Hnd Hos) as Hnd1.
    rewrite Hrun in Hq1. simpl in Hq1.
    destruct (IH _ _ Hq1 Hnd1 Hall) as (s' & ext & Hrest & Hq' & Hnd' & Hext).
    exists s', (newItemsFor q os ++ ext)%list.
    simpl. unfold bind at 1. rewrite Hrun.
    split; [exact Hrest|].
    rewrite app_assoc. split; [exact Hq'|]. split; [exact Hnd'|].
    intros item Hin. apply elem_of_app in Hin as [Hin|Hin].
    + apply newItemsFor_fresh in Hin as (H1 & H2 & H3 & _). auto.
    + destruct (Hext item Hin) as (H1 & H2 & H3).
      split; [| auto]. intros Hd. apply H1. unfold docs in *.
      rewrite fmap_app. apply elem_of_app. left. exact Hd.
Qed.

Lemma enqueueAll_no_duplicates_witness :
  queueOf emptyStore = Some [] /\
  exists s' ext,
    enqueueAll [[orderOf "A"; orderOf "B"]; [orderOf "B"; orderOf "C"]] emptyStore
      = (Ok tt, s') /\
    queueOf s' = Some ext /\ NoDup (docs ext).
Proof.
  split; [reflexivity|].
  destruct (enqueueAll_no_duplicates
              [[orderOf "A"; orderOf "B"]; [orderOf "B"; orderOf "C"]] emptyStore [])
    as (s' & ext & Hrun & Hq' & Hnd & _).
  - reflexivity.
  - constructor.
  - repeat constructor; vm_compute; intros H;
      repeat (apply elem_of_cons in H as [H|H]; [discriminate H|]); inversion H.
  - exists s', ext. auto.
Defined.

(** ** Items that have used up their retries *)




(** C7: when the fetch of the listing throws or answers with a
    non-success status, updateCache throws and has made no put: the store
    is as it was.  In every execution the puts of updateCache are either
    none, or begin with one put of the whole snapshot (the orders just
    fetched with the clock reading, nothing taken from the stored one)
    under the key orders, followed only by puts of the queue. *)
Theorem updateCache_replace_or_nothing (w : World) (summary : option bool) (s : State) :
  (listingFails w (S (tick s)) (listingUrl (today w (tick s))) ->
   exists e s', updateCache w summary s = (Throw e, s') /\
                kv s' = kv s /\ puts s' = puts s) /\
  (exists r s' new,
     updateCache w summary s = (r, s') /\
     puts s' = (puts s ++ new)%list /\
     ((new = [] /\ kv s' = kv s /\ exists e, r = Throw e) \/
      exists os s1 rest,
        fetchExecutiveOrders w s = (Ok os, s1) /\
        new = ("orders", VSnapshot (mkCachedData (Date_now w (tick s1)) os)) :: rest /\
        Forall (fun p => p.1 = "summary_queue") rest /\
        kv s' !! "orders"
          = Some (VSnapshot (mkCachedData (Date_now w (tick s1)) os)))).
Proof.
  pose proof (updateCache_run w summary s) as Hrun.
  split.
  - intros Hfail. destruct (fetchExecutiveOrders_fails w s Hfail) as [e He].
    rewrite He in Hrun. eexists _, _. split; [exact Hrun|]. split; reflexivity.
  - destruct (fetchExecutiveOrders_store w s) as [r Hr]. rewrite Hr in Hrun.
    destruct r as [os|e].
    + simpl in Hrun.
      set (snapshot := VSnapshot (mkCachedData (Date_now w (S (S (tick s)))) os)) in *.
      set (s2 := mkState _ _ _) in Hrun.
      destruct (enqueueNew os s2) as [r3 s3] eqn:Hen.
      assert (Hs3 : exists rest, puts s3 = (puts s2 ++ rest)%list /\
                                 Forall (fun p => p.1 = "summary_queue") rest /\
                                 kv s3 !! "orders" = Some snapshot).
      { revert Hen. unfold enqueueNew, get_queue. run_js.
        destruct (kv s !! "summary_queue") as [[c|q0|t]|] eqn:Hk;
          rewrite lookup_insert_ne by discriminate; rewrite Hk; simpl.
        - intros [= <- <-]. exists []. rewrite app_nil_r. simpl.
          rewrite lookup_insert_eq. auto.
        - destruct (0 <? length _)%nat; intros [= <- <-]; simpl.
          + eexists [_]. split; [reflexivity|]. split; [repeat constructor|].
            rewrite lookup_insert_ne by discriminate. apply lookup_insert_eq.
          + exists []. rewrite app_nil_r, lookup_insert_eq. auto.
        - intros [= <- <-]. exists []. rewrite app_nil_r. simpl.
          rewrite lookup_insert_eq. auto.
        - destruct (0 <? length _)%nat; intros [= <- <-]; simpl.
          + eexists [_]. split; [reflexivity|]. split; [repeat constructor|].
            rewrite lookup_insert_ne by discriminate. apply lookup_insert_eq.
          + exists []. rewrite app_nil_r, lookup_insert_eq. auto. }
      destruct summary as [[|]|].
      * destruct Hs3 as (rest & Hp & Hkeys & Hk).
        exists r3, s3, (("orders", snapshot) :: rest).
        split; [exact Hrun|]. split.
        { rewrite Hp. unfold s2. simpl. rewrite <- app_assoc. reflexivity. }
        right. exists os, (mkState (kv s) (puts s) (S (S (tick s)))), rest. auto.
      * exists (Ok tt), s2, [("orders", snapshot)].
        split; [exact Hrun|]. split; [reflexivity|].
        right. exists os, (mkState (kv s) (puts s) (S (S (tick s)))), [].
        split; [exact Hr|]. split; [reflexivity|]. split; [constructor|].
        unfold s2. simpl. apply lookup_insert_eq.
      * exists (Ok tt), s2, [("orders", snapshot)].
        split; [exact Hrun|]. split; [reflexivity|].
        right. exists os, (mkState (kv s) (puts s) (S (S (tick s)))), [].
        split; [exact Hr|]. split; [reflexivity|]. split; [constructor|].
        unfold s2. simpl. apply lookup_insert_eq.
    + eexists _, _, []. split; [exact Hrun|]. simpl. rewrite app_nil_r.
      split; [reflexivity|]. left. eauto.
Qed.

Lemma updateCache_replace_or_nothing_witness :
  listingFails offlineWorld 1 (listingUrl "2025-01-20") /\
  exists e s',
    updateCache offlineWorld (Some true) (storeWith sevenPending) = (Throw e, s') /\
    kv s' = kv (storeWith sevenPending) /\ puts s' = puts (storeWith sevenPending).
Proof.
  assert (Hf : listingFails offlineWorld 1 (listingUrl "2025-01-20")).
  { left. exists "offline". reflexivity. }
  split; [exact Hf|].
  destruct (updateCache_replace_or_nothing offlineWorld (Some true) (storeWith sevenPending))
    as [Hfail _].
  apply Hfail. exact Hf.
Defined.

(** * Further properties of the worker *)

(** ** Sequences of invocations and the queue *)

Lemma runCalls_invariant (w : World) (I : State -> Prop) :
  (forall s, I s -> I (snd (processQueue w s))) ->
  (forall summary s, I s -> I (snd (updateCache w summary s))) ->
  forall cs s, I s -> I (runCalls w cs s).
Proof.
  intros Hp Hu. induction cs as [|c rest IH]; intros s Hs; [exact Hs|].
  simpl. apply IH. destruct c as [|summary]; simpl; auto.
Qed.

Lemma updateCache_queue_ext (w : World) (summary : option bool) (s : State)
  (q : list QueueItem) :
  queueOf s = Some q ->
  exists ext,
    queueOf (snd (updateCache w summary s)) = Some (q ++ ext)%list /\
    forall item, item ∈ ext ->
      status item = pending /\ attempts item = 0%Z /\ lastAttempt item = None.
Proof.
  intros Hq. pose proof (updateCache_run w summary s) as H.
  destruct (fetchExecutiveOrders_store w s) as [r Hr]. rewrite Hr in H.
  assert (Hnil : forall st, queueOf st = Some q ->
            exists ext, queueOf st = Some (q ++ ext)%list /\
              forall item, item ∈ ext ->
                status item = pending /\ attempts item = 0%Z /\ lastAttempt item = None).
  { intros st Hst. exists []. rewrite app_nil_r. split; [exact Hst|].
    intros item Hin. inversion Hin. }
  destruct r as [os|e].
  - simpl in H. rewrite H.
    set (s2 := mkState _ _ _).
    assert (Hq2 : queueOf s2 = Some q).
    { unfold queueOf, s2. simpl. rewrite lookup_insert_ne by discriminate. exact Hq. }
    destruct summary as [[|]|]; [| apply Hnil, Hq2 | apply Hnil, Hq2].
    exists (newItemsFor q os). split; [apply enqueueNew_queue; exact Hq2|].
    intros item Hin. apply newItemsFor_fresh in Hin as (_ & H1 & H2 & H3 & _). auto.
  - rewrite H. apply Hnil, Hq.
Qed.





Lemma eligibleFrom_settled (w : World) (q : list QueueItem) :
  Forall settled q ->
  forall (i : nat) (s : State), eligibleFrom w i q s = (Ok [], s).
Proof.
  induction 1 as [|item rest Hset _ IH]; intros i s; [reflexivity|].
  simpl. unfold bind at 1.
  assert (He : isEligible w item s = (Ok false, s)).
  { unfold isEligible. destruct Hset as [H|[H|[H Hge]]]; rewrite H; try reflexivity.
    destruct (Z.ltb_spec (attempts item) MAX_RETRIES); [lia | reflexivity]. }
  rewrite He. unfold bind at 1. rewrite IH. reflexivity.
Qed.

(** X3: when every item of the stored queue is completed, processing, or
    failed with attempts >= MAX_RETRIES (an absent or empty queue
    included), an invocation of processQueue returns with the state exactly
    as it was: no put, no network call and no reading of the clock. *)
Theorem processQueue_quiescent (w : World) (s : State) (q : list QueueItem) :
  queueOf s = Some q -> Forall settled q ->
  processQueue w s = (Ok tt, s).
Proof.
  intros Hq Hall. unfold processQueue. unfold bind at 1.
  rewrite (get_queue_run s q Hq).
  destruct q as [|item rest]; [reflexivity|]. simpl.
  unfold bind at 1. unfold eligibleItems.
  rewrite (eligibleFrom_settled w _ Hall). reflexivity.
Qed.

Lemma processQueue_quiescent_witness :
  processQueue offlineWorld
    (storeWith [mkQueueItem "A" "https://example.org/A" completed 1 (Some 1%Z);
                failedItem "B" 3 (Some 2%Z)])
  = (Ok tt, storeWith [mkQueueItem "A" "https://example.org/A" completed 1 (Some 1%Z);
                       failedItem "B" 3 (Some 2%Z)]).
Proof.
  apply (processQueue_quiescent offlineWorld _
           [mkQueueItem "A" "https://example.org/A" completed 1 (Some 1%Z);
            failedItem "B" 3 (Some 2%Z)]).
  - reflexivity.
  - constructor; [left; reflexivity|].
    constructor; [| constructor]. right; right. split; [reflexivity|].
    unfold MAX_RETRIES. simpl. lia.
Defined.

Lemma finalItem_lifecycle (w : World) (t : nat) (item : QueueItem) (now : Z) :
  lifecycle item -> eligibleAt now item = true -> lifecycle (finalItem w t item).
Proof.
  intros Hl He. right.
  destruct (finalItem_processed w t item) as (_ & _ & Hatt & Hst & Hla).
  split; [exact Hst|]. split; [| exact Hla]. rewrite Hatt.
  unfold eligibleAt in He.
  destruct Hl as [(Hp & H0 & _)|([Hc|Hf] & Hb & _)].
  - rewrite H0. unfold MAX_RETRIES. lia.
  - rewrite Hc in He. discriminate.
  - rewrite Hf in He. apply andb_true_iff in He as [He _].
    apply Z.ltb_lt in He. lia.
Qed.

Lemma processQueue_lifecycle (w : World) (s : State) (q : list QueueItem) :
  queueOf s = Some q -> Forall lifecycle q ->
  exists q', queueOf (snd (processQueue w s)) = Some q' /\ Forall lifecycle q'.
Proof.
  intros Hq Hall.
  destruct (processQueue_spec w s q Hq) as
    (l & t1 & q' & s' & new & _ & _ & Hin & _ & Hrun & Hq' & _ & Hout & Hproc & _).
  exists q'. rewrite Hrun. split; [exact Hq'|].
  apply Forall_lookup. intros i x Hx.
  rewrite Forall_lookup in Hall.
  destruct (decide (i ∈ take MAX_CONCURRENT_REQUESTS l)) as [Hi|Hi].
  - destruct (Hproc i Hi) as (item & t & Hi1 & _ & Hi2).
    rewrite Hx in Hi2. injection Hi2 as ->.
    apply elem_of_take in Hi as (k & Hk & _).
    destruct (Hin i) as (item' & t0 & Hi0 & _ & He).
    { apply list_elem_of_lookup. eauto. }
    rewrite Hi1 in Hi0. injection Hi0 as <-.
    apply (finalItem_lifecycle w t item _ (Hall i item Hi1) He).
  - rewrite (Hout i Hi) in Hx. apply (Hall i x Hx).
Qed.

(** X1: one invocation of processQueue, and one of updateCache, run to
    completion on a stored queue in which every item is either pending with
    no attempt or completed/failed with between 1 and MAX_RETRIES attempts
    (an absent or empty queue is one), leaves a stored queue of the same
    kind: the invocation takes no item beyond MAX_RETRIES attempts, a
    pending item has no attempt, and no item is left in processing. *)
Theorem invocation_keeps_attempts_bounded (w : World) (s : State)
  (q : list QueueItem) :
  queueOf s = Some q -> Forall lifecycle q ->
  (exists q',
     fst (processQueue w s) = Ok tt /\
     queueOf (snd (processQueue w s)) = Some q' /\
     Forall lifecycle q' /\
     forall item, item ∈ q' ->
       (0 <= attempts item <= MAX_RETRIES)%Z /\
       status item <> processing /\
       (status item = pending -> attempts item = 0%Z)) /\
  (forall summary, exists q',
     queueOf (snd (updateCache w summary s)) = Some q' /\
     Forall lifecycle q' /\
     forall item, item ∈ q' ->
       (0 <= attempts item <= MAX_RETRIES)%Z /\
       status item <> processing /\
       (status item = pending -> attempts item = 0%Z)).
Proof.
  intros Hq Hall.
  assert (Hbounds : forall q', Forall lifecycle q' ->
            forall item, item ∈ q' ->
              (0 <= attempts item <= MAX_RETRIES)%Z /\
              status item <> processing /\
              (status item = pending -> attempts item = 0%Z)).
  { intros q' Hall' item Hin. rewrite Forall_forall in Hall'.
    destruct (Hall' item Hin) as [(Hp & H0 & _)|([Hc|Hf] & Hb & _)].
    - rewrite Hp, H0. unfold MAX_RETRIES. repeat split; try lia; discriminate.
    - rewrite Hc. repeat split; try lia; discriminate.
    - rewrite Hf. repeat split; try lia; discriminate. }
  split.
  - destruct (processQueue_lifecycle w s q Hq Hall) as (q' & Hq' & Hall').
    exists q'. split; [| split; [exact Hq' | split; [exact Hall' | apply Hbounds, Hall']]].
    destruct (processQueue_spec w s q Hq) as
      (l & t1 & q0 & s' & new & _ & _ & _ & _ & Hrun & _). rewrite Hrun. reflexivity.
  - intros summary.
    destruct (updateCache_queue_ext w summary s q Hq) as (ext & Hq1 & Hext).
    assert (Hall' : Forall lifecycle (q ++ ext)).
    { apply Forall_app. split; [exact Hall|].
      apply Forall_forall. intros item Hin. left. apply Hext, Hin. }
    exists (q ++ ext)%list. split; [exact Hq1|]. split; [exact Hall' | apply Hbounds, Hall'].
Qed.

Lemma invocation_keeps_attempts_bounded_witness :
  queueOf (storeWith [failedItem "A" 2 (Some 1%Z); pendingItem "B"])
    = Some [failedItem "A" 2 (Some 1%Z); pendingItem "B"] /\
  exists q',
    queueOf (snd (processQueue offlineWorld
                    (storeWith [failedItem "A" 2 (Some 1%Z); pendingItem "B"])))
      = Some q' /\
    Forall lifecycle q'.
Proof.
  split; [reflexivity|].
  destruct (invocation_keeps_attempts_bounded offlineWorld
              (storeWith [failedItem "A" 2 (Some 1%Z); pendingItem "B"])
              [failedItem "A" 2 (Some 1%Z); pendingItem "B"])
    as ((q' & _ & Hq' & Hall & _) & _).
  - reflexivity.
  - constructor; [| constructor; [| constructor]].
    + right. simpl. split; [right; reflexivity|]. split; [unfold MAX_RETRIES; lia | eauto].
    + left. repeat split; reflexivity.
  - exists q'. auto.
Defined.

(** ** The puts of processQueue *)

Lemma processItems_invariant (w : World) (P : nat -> list QueueItem -> State -> Prop) :
  (forall n q0 s0 i item t',
     q0 !! i = Some item -> P n q0 s0 ->
     P (S n) (<[i := finalItem w (tick s0) item]> q0)
       (mkState (applyPuts (kv s0) (turnPuts w (tick s0) q0 i item))
                (puts s0 ++ turnPuts w (tick s0) q0 i item) t')) ->
  forall l n q s,
    (forall i, i ∈ l -> i < length q) -> P n q s ->
    exists q' s', processItems w q l s = (Ok q', s') /\ P (n + length l) q' s'.
Proof.
  intros Hstep. induction l as [|i rest IH]; intros n q s Hlt HP.
  - exists q, s. rewrite Nat.add_0_r. auto.
  - assert (Hiq : i < length q) by (apply Hlt; left).
    destruct (lookup_lt_is_Some_2 q i Hiq) as [item Hitem].
    destruct (processItem_run w q i item s Hitem) as (t1 & Hrun & _).
    assert (Hlt1 : forall j, j ∈ rest ->
              j < length (<[i := finalItem w (tick s) item]> q)).
    { intros j Hj. rewrite length_insert. apply Hlt. right. exact Hj. }
    destruct (IH (S n) _ _ Hlt1 (Hstep n q s i item t1 Hitem HP))
      as (q' & s' & Hrun' & HP').
    exists q', s'. cbn [processItems]. unfold bind at 1. rewrite Hrun.
    split; [exact Hrun'|]. cbn [length].
    replace (n + S (length rest)) with (S n + length rest) by lia. exact HP'.
Qed.

Lemma processQueue_invariant (w : World) (P : nat -> list QueueItem -> State -> Prop)
  (s : State) (q : list QueueItem) :
  queueOf s = Some q ->
  (forall n q0 s0 i item t',
     q0 !! i = Some item -> P n q0 s0 ->
     P (S n) (<[i := finalItem w (tick s0) item]> q0)
       (mkState (applyPuts (kv s0) (turnPuts w (tick s0) q0 i item))
                (puts s0 ++ turnPuts w (tick s0) q0 i item) t')) ->
  (forall t, P 0 q (mkState (kv s) (puts s) t)) ->
  exists l t1 q' s',
    eligibleItems w q s = (Ok l, mkState (kv s) (puts s) t1) /\
    processQueue w s = (Ok tt, s') /\
    P (length (take MAX_CONCURRENT_REQUESTS l)) q' s'.
Proof.
  intros Hq Hstep H0.
  destruct (eligibleFrom_run w q 0 s) as (l & t1 & Hel & _ & Hs & Hin & _).
  destruct (take_eligible_props q l MAX_CONCURRENT_REQUESTS Hs) as [_ Hlt].
  { intros j Hj. destruct (Hin j Hj) as (_ & item & _ & Hl & _).
    replace (j - 0) with j in Hl by lia. eauto. }
  destruct (processItems_invariant w P Hstep (take MAX_CONCURRENT_REQUESTS l) 0 q
              (mkState (kv s) (puts s) t1) Hlt (H0 t1)) as (q' & s' & Hrun & HP).
  simpl in HP.
  destruct q as [|item0 rest].
  - exists l, t1, [], s. split; [exact Hel|].
    assert (l = []) as ->.
    { destruct l as [|j l']; [reflexivity|].
      destruct (Hin j) as (_ & item & _ & Hl & _); [left | inversion Hl]. }
    split.
    + unfold processQueue. unfold bind at 1. rewrite (get_queue_run s [] Hq). reflexivity.
    + simpl. specialize (H0 (tick s)). destruct s; exact H0.
  - exists l, t1, q', s'. split; [exact Hel|]. split; [| exact HP].
    unfold processQueue. unfold bind at 1. rewrite (get_queue_run s _ Hq). simpl.
    unfold bind at 1. unfold eligibleItems in *. rewrite Hel.
    unfold bind at 1. rewrite Hrun. reflexivity.
Qed.

Lemma turnOutcome_truthy (w : World) (t : nat) (item : QueueItem) (r : string) :
  turnOutcome w t item = Ok r -> truthy r = true.
Proof.
  rewrite turnOutcome_unfold.
  destruct (fetch_text w t (rawTextUrl item)) as [resp|e]; [| discriminate].
  destruct (text resp) as [txt|e]; [| discriminate].
  destruct (AI_run w (S t) AI_MODEL (messagesCF txt)) as [[r0|]|e]; try discriminate.
  - destruct (truthy r0) eqn:Ht; intros [= <-]; [exact Ht | reflexivity].
  - intros [= <-]. reflexivity.
Qed.

(** X4: one turn of the loop of processQueue on the item at position i
    returns normally and makes two or three puts, in this order: the queue
    with the item marked processing, attempts + 1 and lastAttempt the clock
    reading; then, exactly when the turn ends completed, the non-empty
    summary under the summary key of the item's document; then the queue
    with the item in its final status. *)
Theorem processItem_put_sequence (w : World) (q : list QueueItem) (i : nat)
  (item : QueueItem) (s : State) :
  q !! i = Some item ->
  exists s' st mid,
    let item1 := mkQueueItem (documentNumber item) (rawTextUrl item) processing
                             (attempts item + 1)%Z (Some (Date_now w (tick s))) in
    let item2 := mkQueueItem (documentNumber item) (rawTextUrl item) st
                             (attempts item + 1)%Z (Some (Date_now w (tick s))) in
    processItem w q i s = (Ok (<[i := item2]> q), s') /\
    puts s' = (puts s ++ [("summary_queue", VQueue (<[i := item1]> q))] ++ mid ++
                         [("summary_queue", VQueue (<[i := item2]> q))])%list /\
    ((st = failed /\ mid = []) \/
     (st = completed /\
      exists summary, truthy summary = true /\
        mid = [(summaryKey (documentNumber item), VText summary)])).
Proof.
  intros Hi. destruct (processItem_run w q i item s Hi) as (t' & Hrun & _).
  unfold turnPuts, finalItem, turnStatus in Hrun.
  destruct (turnOutcome w (S (tick s)) (markProcessing item (Date_now w (tick s))))
    as [summary|e] eqn:Hout.
  - eexists _, completed, [_]. simpl. split; [exact Hrun|].
    split; [reflexivity|]. right. split; [reflexivity|].
    exists summary. split; [| reflexivity].
    apply (turnOutcome_truthy w _ _ _ Hout).
  - eexists _, failed, []. simpl. split; [exact Hrun|].
    split; [reflexivity|]. left. auto.
Qed.

Lemma processItem_put_sequence_witness :
  exists s' st (mid : list (string * KVValue)),
    processItem onlineWorld [pendingItem "A"] 0 emptyStore
      = (Ok [mkQueueItem "A" (rawTextUrl (pendingItem "A")) st 1
                         (Some 1700000000000%Z)], s') /\
    length (puts s') = 2 + length mid.
Proof.
  destruct (processItem_put_sequence onlineWorld [pendingItem "A"] 0
              (pendingItem "A") emptyStore)
    as (s' & st & mid & Hrun & Hputs & _); [reflexivity|].
  exists s', st, mid. split; [exact Hrun|].
  rewrite Hputs. simpl. rewrite length_app. simpl. lia.
Defined.

Lemma turnPuts_length (w : World) (t : nat) (q : list QueueItem) (i : nat)
  (item : QueueItem) :
  2 <= length (turnPuts w t q i item) <= 3.
Proof.
  unfold turnPuts. destruct (turnOutcome w (S t) _); simpl; lia.
Qed.

(** X5: one invocation of processQueue makes at least two and at most three
    puts for each item it selects, so never more than
    3 * MAX_CONCURRENT_REQUESTS = 15 puts, and none when it selects
    nothing. *)
Theorem processQueue_put_count (w : World) (s : State) (q : list QueueItem) :
  queueOf s = Some q ->
  exists eligible s1 s' new,
    eligibleItems w q s = (Ok eligible, s1) /\
    processQueue w s = (Ok tt, s') /\
    puts s' = (puts s ++ new)%list /\
    2 * length (take MAX_CONCURRENT_REQUESTS eligible) <= length new /\
    length new <= 3 * length (take MAX_CONCURRENT_REQUESTS eligible) /\
    length new <= 15.
Proof.
  intros Hq.
  destruct (processQueue_invariant w
              (fun n _ s0 => exists new, puts s0 = (puts s ++ new)%list /\
                                         2 * n <= length new <= 3 * n) s q Hq)
    as (l & t1 & q' & s' & Hel & Hrun & new & Hputs & Hlen).
  - intros n q0 s0 i item t' _ (new & Hputs & Hlen).
    exists (new ++ turnPuts w (tick s0) q0 i item)%list. cbn [puts].
    rewrite Hputs, <- app_assoc. split; [reflexivity|].
    rewrite length_app. pose proof (turnPuts_length w (tick s0) q0 i item). lia.
  - intros t. exists []. simpl. rewrite app_nil_r. split; [reflexivity | lia].
  - exists l, (mkState (kv s) (puts s) t1), s', new.
    split; [exact Hel|]. split; [exact Hrun|]. split; [exact Hputs|].
    pose proof (length_take_le l MAX_CONCURRENT_REQUESTS) as Hle.
    assert (length (take MAX_CONCURRENT_REQUESTS l) <= 5).
    { rewrite length_take. unfold MAX_CONCURRENT_REQUESTS. lia. }
    lia.
Qed.

Lemma processQueue_put_count_witness :
  exists s' new,
    processQueue onlineWorld (storeWith sevenPending) = (Ok tt, s') /\
    puts s' = (puts (storeWith sevenPending) ++ new)%list /\
    length new <= 15.
Proof.
  destruct (processQueue_put_count onlineWorld (storeWith sevenPending) sevenPending)
    as (l & s1 & s' & new & _ & Hrun & Hputs & _ & _ & Hle); [reflexivity|].
  exists s', new. auto.
Defined.

(** ** Which keys an operation writes *)

Lemma enqueueNew_effect (os : list ExecutiveOrder) (s : State) :
  snd (enqueueNew os s) = s \/
  exists q', snd (enqueueNew os s) =
             mkState (<["summary_queue" := VQueue q']> (kv s))
                     (puts s ++ [("summary_queue", VQueue q')]) (tick s).
Proof.
  unfold enqueueNew, get_queue. run_js.
  destruct (kv s !! "summary_queue") as [[c|q0|t]|]; simpl; auto.
  - destruct (0 <? length _)%nat; simpl; eauto.
  - destruct (0 <? length _)%nat; simpl; eauto.
Qed.

Lemma updateCache_frame (w : World) (summary : option bool) (s : State) (k : string) :
  k <> "orders" -> k <> "summary_queue" ->
  kv (snd (updateCache w summary s)) !! k = kv s !! k.
Proof.
  intros Ho Hq. pose proof (updateCache_run w summary s) as H.
  destruct (fetchExecutiveOrders_store w s) as [r Hr]. rewrite Hr in H.
  destruct r as [os|e]; [| rewrite H; reflexivity].
  simpl in H. rewrite H. set (s2 := mkState _ _ _).
  assert (H2 : kv s2 !! k = kv s !! k).
  { unfold s2. simpl. apply lookup_insert_ne. congruence. }
  destruct summary as [[|]|]; try exact H2.
  destruct (enqueueNew_effect os s2) as [->|(q' & ->)]; [exact H2|].
  simpl. rewrite lookup_insert_ne by congruence. exact H2.
Qed.

Lemma processQueue_illtyped (w : World) (s : State) :
  queueOf s = None -> processQueue w s = (Throw "TypeError", s).
Proof.
  unfold queueOf, processQueue, get_queue. run_js.
  destruct (kv s !! "summary_queue") as [[c|q0|t]|]; simpl; congruence.
Qed.

(** X8: the keys of the namespace are kept apart.  processQueue never
    writes the key orders: the stored snapshot is the same before and
    after, whatever the queue and the world.  updateCache never writes a
    summary key: every stored summary is the same before and after, whether
    the refresh succeeds or throws. *)
Theorem snapshot_and_summaries_kept_apart (w : World) (s : State) :
  kv (snd (processQueue w s)) !! "orders" = kv s !! "orders" /\
  snapshotOf (snd (processQueue w s)) = snapshotOf s /\
  (forall summary d,
     kv (snd (updateCache w summary s)) !! summaryKey d = kv s !! summaryKey d).
Proof.
  assert (Ho : kv (snd (processQueue w s)) !! "orders" = kv s !! "orders").
  { destruct (queueOf s) as [q|] eqn:Hq.
    - destruct (processQueue_spec w s q Hq) as
        (l & t1 & q' & s' & new & _ & _ & _ & _ & Hrun & _ & _ & _ & _ & _ & Hkv & _ & _ & Hkeys).
      rewrite Hrun. simpl. rewrite Hkv. apply applyPuts_frame.
      eapply Forall_impl; [exact Hkeys|]. simpl.
      intros p [H|(d & H)]; rewrite H; [discriminate|].
      apply summaryKey_not_orders.
    - rewrite (processQueue_illtyped w s Hq). reflexivity. }
  split; [exact Ho|]. split; [unfold snapshotOf; rewrite Ho; reflexivity|].
  intros summary d. apply updateCache_frame.
  - apply summaryKey_not_orders.
  - apply summaryKey_not_queue.
Qed.

(** ** Completed items and their summaries *)

Lemma processQueue_summarized (w : World) (s : State) :
  summarized s -> summarized (snd (processQueue w s)).
Proof.
  intros (q & Hq & Hsum).
  destruct (processQueue_invariant w
              (fun _ q0 s0 =>
                 queueOf s0 = Some q0 /\
                 forall item, item ∈ q0 -> status item = completed ->
                   exists t, kv s0 !! summaryKey (documentNumber item) = Some (VText t) /\
                             truthy t = true) s q Hq)
    as (l & t1 & q' & s' & _ & Hrun & Hq' & Hsum').
  - intros _ q0 s0 i item t' Hi (Hq0 & Hs0).
    pose proof (lookup_lt_Some _ _ _ Hi) as Hlt.
    unfold turnPuts, finalItem, turnStatus.
    destruct (turnOutcome w (S (tick s0)) (markProcessing item (Date_now w (tick s0))))
      as [summary|e] eqn:Hout; unfold applyPuts, queueOf; simpl;
      (split; [rewrite lookup_insert_eq; reflexivity|]);
      intros item' Hin Hst;
      apply list_elem_of_lookup in Hin as (j & Hj);
      destruct (decide (j = i)) as [->|Hne].
    + rewrite list_lookup_insert_eq in Hj by exact Hlt. injection Hj as <-. simpl.
      exists summary. split; [| apply (turnOutcome_truthy w _ _ _ Hout)].
      rewrite lookup_insert_ne by (apply not_eq_sym, summaryKey_not_queue).
      apply lookup_insert_eq.
    + rewrite list_lookup_insert_ne in Hj by congruence.
      destruct (Hs0 item') as (t & Hk & Ht); [apply list_elem_of_lookup; eauto | exact Hst |].
      rewrite lookup_insert_ne by (apply not_eq_sym, summaryKey_not_queue).
      destruct (decide (summaryKey (documentNumber item) = summaryKey (documentNumber item')))
        as [He|He].
      * rewrite He, lookup_insert_eq. exists summary.
        split; [reflexivity | apply (turnOutcome_truthy w _ _ _ Hout)].
      * rewrite lookup_insert_ne by exact He.
        rewrite lookup_insert_ne by (apply not_eq_sym, summaryKey_not_queue). eauto.
    + rewrite list_lookup_insert_eq in Hj by exact Hlt. injection Hj as <-.
      simpl in Hst. discriminate.
    + rewrite list_lookup_insert_ne in Hj by congruence.
      destruct (Hs0 item') as (t & Hk & Ht); [apply list_elem_of_lookup; eauto | exact Hst |].
      rewrite !lookup_insert_ne by (apply not_eq_sym, summaryKey_not_queue). eauto.
  - intros t. split; [exact Hq | exact Hsum].
  - rewrite Hrun. exists q'. split; [exact Hq' | exact Hsum'].
Qed.

Lemma updateCache_summarized (w : World) (summary : option bool) (s : State) :
  summarized s -> summarized (snd (updateCache w summary s)).
Proof.
  intros (q & Hq & Hsum).
  destruct (updateCache_queue_ext w summary s q Hq) as (ext & Hq1 & Hext).
  exists (q ++ ext)%list. split; [exact Hq1|].
  intros item Hin Hst. apply elem_of_app in Hin as [Hin|Hin].
  - destruct (Hsum item Hin Hst) as (t & Hk & Ht). exists t. split; [| exact Ht].
    rewrite updateCache_frame;
      [exact Hk | apply summaryKey_not_orders | apply summaryKey_not_queue].
  - destruct (Hext item Hin) as (Hp & _). congruence.
Qed.

(** X6: if every completed item of the stored queue has a non-empty summary
    text stored under the summary key of its document (true of an absent or
    empty queue), this stays true through every sequence of invocations of
    processQueue and updateCache: an item is never marked completed without
    its summary having been stored, and no later invocation leaves a
    completed item without a non-empty summary. *)
Theorem completed_items_keep_summaries (w : World) (cs : list Call) (s : State) :
  summarized s -> summarized (runCalls w cs s).
Proof.
  apply (runCalls_invariant w summarized).
  - apply processQueue_summarized.
  - intros summary st. apply updateCache_summarized.
Qed.

Lemma completed_items_keep_summaries_witness :
  summarized emptyStore /\
  queueOf (runCalls (listingWorld [resultOf "A" (Some "Donald Trump")])
                    [CallUpdateCache (Some true); CallProcessQueue] emptyStore)
    = Some [mkQueueItem "A" (rawTextUrl (pendingItem "A")) completed 1
                        (Some 1700000000000%Z)] /\
  kv (runCalls (listingWorld [resultOf "A" (Some "Donald Trump")])
               [CallUpdateCache (Some true); CallProcessQueue] emptyStore)
    !! "summary:A" = Some (VText "## Summary") /\
  summarized (runCalls (listingWorld [resultOf "A" (Some "Donald Trump")])
                       [CallUpdateCache (Some true); CallProcessQueue] emptyStore).
Proof.
  assert (H0 : summarized emptyStore).
  { exists []. split; [reflexivity|]. intros item Hin. inversion Hin. }
  split; [exact H0|]. split; [vm_compute; reflexivity|].
  split; [vm_compute; reflexivity|].
  apply (completed_items_keep_summaries
           (listingWorld [resultOf "A" (Some "Donald Trump")])
           [CallUpdateCache (Some true); CallProcessQueue] emptyStore H0).
Defined.

(** ** enqueueNew, fetchExecutiveOrders and updateCache again *)

Lemma newItemsFor_all_present (q : list QueueItem) (os : list ExecutiveOrder) :
  (forall order, order ∈ os -> document_number order ∈ docs q) ->
  newItemsFor q os = [].
Proof.
  unfold newItemsFor. induction os as [|o rest IH]; intros Hall; [reflexivity|].
  rewrite filter_cons. destruct (decide _) as [Hfresh|_].
  - exfalso. apply Hfresh. apply elem_of_list_to_set. apply (Hall o). left.
  - apply IH. intros order Hin. apply Hall. right. exact Hin.
Qed.

(** X9: enqueueNew on a stored queue returns normally; afterwards every
    order of its input has an item in the queue, and a second call with the
    same input changes nothing: it makes no put and returns the state as it
    is. *)
Theorem enqueueNew_tracks_input_once (os : list ExecutiveOrder) (s : State)
  (q : list QueueItem) :
  queueOf s = Some q ->
  exists s1 q1,
    enqueueNew os s = (Ok tt, s1) /\
    queueOf s1 = Some q1 /\
    (forall order, order ∈ os -> document_number order ∈ docs q1) /\
    enqueueNew os s1 = (Ok tt, s1).
Proof.
  intros Hq.
  pose proof (enqueueNew_run s q os Hq) as Hrun.
  pose proof (enqueueNew_queue s q os Hq) as Hq1.
  rewrite Hrun in Hq1. simpl in Hq1.
  eexists _, (q ++ newItemsFor q os)%list.
  split; [exact Hrun|]. split; [exact Hq1|].
  assert (Hall : forall order, order ∈ os ->
            document_number order ∈ docs (q ++ newItemsFor q os)).
  { intros order Hin. unfold docs. rewrite fmap_app. apply elem_of_app.
    destruct (decide (document_number order ∈ documentNumber <$> q)) as [Hd|Hd];
      [left; exact Hd | right].
    unfold newItemsFor. rewrite <- list_fmap_compose.
    apply list_elem_of_fmap. exists order. split; [reflexivity|].
    apply list_elem_of_filter. split; [| exact Hin].
    intros Hset. apply Hd. apply elem_of_list_to_set in Hset. exact Hset. }
  split; [exact Hall|].
  rewrite (enqueueNew_run _ _ os Hq1).
  rewrite (newItemsFor_all_present _ os Hall). reflexivity.
Qed.

Lemma enqueueNew_tracks_input_once_witness :
  exists s1 q1,
    enqueueNew [orderOf "A"; orderOf "A"; orderOf "B"] (storeWith [pendingItem "B"])
      = (Ok tt, s1) /\
    queueOf s1 = Some q1 /\
    enqueueNew [orderOf "A"; orderOf "A"; orderOf "B"] s1 = (Ok tt, s1).
Proof.
  destruct (enqueueNew_tracks_input_once [orderOf "A"; orderOf "A"; orderOf "B"]
              (storeWith [pendingItem "B"]) [pendingItem "B"])
    as (s1 & q1 & H1 & H2 & _ & H3); [reflexivity|].
  exists s1, q1. auto.
Defined.

Lemma mapOutcome_normalize_ok (rs : list RawResult) :
  Forall (fun r => is_Some (r_president r)) rs ->
  exists os,
    mapOutcome normalize rs = Ok os /\
    Forall2 (fun r o => normalize r = Ok o) rs os.
Proof.
  induction 1 as [|r rest [name Hname] _ (os & Hos & Hall)].
  - exists []. split; [reflexivity | constructor].
  - simpl. unfold normalize at 1. rewrite Hname, Hos.
    eexists (_ :: os). split; [reflexivity|].
    constructor; [| exact Hall]. unfold normalize. rewrite Hname. reflexivity.
Qed.

Lemma mapOutcome_normalize_fails (rs : list RawResult) :
  Exists (fun r => r_president r = None) rs ->
  mapOutcome normalize rs = Throw "TypeError".
Proof.
  induction rs as [|r rest IH]; intros Hex; [inversion Hex|].
  simpl. unfold normalize at 1.
  destruct (r_president r) as [name|] eqn:Hname; [| reflexivity].
  apply Exists_cons in Hex as [Hr|Hrest]; [congruence|].
  rewrite (IH Hrest). reflexivity.
Qed.

(** X10: when the listing answers with a success status and a readable
    body in which every result has a president, fetchExecutiveOrders
    returns one order per result, in the order of the results, with the
    fields of the result copied and the president's name as president; it
    makes two outside calls (the date and the fetch) and no put. *)
Theorem fetchExecutiveOrders_normalizes (w : World) (s : State)
  (resp : ListingResponse) (rs : list RawResult) :
  fetch_listing w (S (tick s)) (listingUrl (today w (tick s))) = Ok resp ->
  l_ok resp = true ->
  l_json resp = Ok rs ->
  Forall (fun r => is_Some (r_president r)) rs ->
  exists os,
    fetchExecutiveOrders w s = (Ok os, mkState (kv s) (puts s) (S (S (tick s)))) /\
    length os = length rs /\
    Forall2 (fun r o =>
               document_number o = r_document_number r /\
               raw_text_url o = r_raw_text_url r /\
               pdf_url o = r_pdf_url r /\
               title o = r_title r /\
               executive_order_number o = r_executive_order_number r /\
               publication_date o = r_publication_date r /\
               signing_date o = r_signing_date r /\
               type o = r_type r /\
               r_president r = Some (president o)) rs os.
Proof.
  intros Hf Hok Hj Hall.
  destruct (mapOutcome_normalize_ok rs Hall) as (os & Hos & H2).
  exists os. split; [| split].
  - unfold fetchExecutiveOrders. run_js. rewrite Hf. simpl. rewrite Hok. simpl.
    rewrite Hj. simpl. rewrite Hos. reflexivity.
  - symmetry. apply (Forall2_length _ _ _ H2).
  - eapply Forall2_impl; [exact H2|]. simpl. intros r o Hn.
    unfold normalize in Hn. destruct (r_president r) as [name|]; [| discriminate].
    injection Hn as <-. simpl. repeat split; reflexivity.
Qed.

Lemma fetchExecutiveOrders_normalizes_witness :
  exists os,
    fetchExecutiveOrders (listingWorld [resultOf "A" (Some "Donald Trump")]) emptyStore
      = (Ok os, mkState ∅ [] 2) /\
    length os = 1.
Proof.
  destruct (fetchExecutiveOrders_normalizes
              (listingWorld [resultOf "A" (Some "Donald Trump")]) emptyStore
              (mkListingResponse true "OK" (Ok [resultOf "A" (Some "Donald Trump")]))
              [resultOf "A" (Some "Donald Trump")])
    as (os & Hrun & Hlen & _); try reflexivity.
  - repeat constructor. eexists. reflexivity.
  - exists os. auto.
Defined.

(** X11: updateCache aborts, rethrowing the error as it is and leaving the
    store and the put log untouched, in each of these cases: the fetch of
    the listing throws; the listing answers with a non-success status (the
    error is Failed to fetch orders: followed by the status text); the body
    of the answer cannot be read; one result of the listing has no
    president (a TypeError, whatever the other results are). *)
Theorem updateCache_abort_causes (w : World) (summary : option bool) (s : State) :
  (forall e, fetch_listing w (S (tick s)) (listingUrl (today w (tick s))) = Throw e ->
     exists s1, updateCache w summary s = (Throw e, s1) /\
                kv s1 = kv s /\ puts s1 = puts s) /\
  (forall resp,
     fetch_listing w (S (tick s)) (listingUrl (today w (tick s))) = Ok resp ->
     (l_ok resp = false ->
      exists s1, updateCache w summary s =
                   (Throw ("Failed to fetch orders: " ++ l_statusText resp), s1) /\
                 kv s1 = kv s /\ puts s1 = puts s) /\
     (forall e, l_ok resp = true -> l_json resp = Throw e ->
      exists s1, updateCache w summary s = (Throw e, s1) /\
                 kv s1 = kv s /\ puts s1 = puts s) /\
     (forall rs, l_ok resp = true -> l_json resp = Ok rs ->
      Exists (fun r => r_president r = None) rs ->
      exists s1, updateCache w summary s = (Throw "TypeError", s1) /\
                 kv s1 = kv s /\ puts s1 = puts s)).
Proof.
  pose proof (updateCache_run w summary s) as Hrun.
  assert (Habort : forall e, fetchExecutiveOrders w s =
                     (Throw e, mkState (kv s) (puts s) (S (S (tick s)))) ->
            exists s1, updateCache w summary s = (Throw e, s1) /\
                       kv s1 = kv s /\ puts s1 = puts s).
  { intros e He. rewrite He in Hrun. eexists. split; [exact Hrun|]. split; reflexivity. }
  split.
  - intros e Hf. apply Habort. unfold fetchExecutiveOrders. run_js.
    rewrite Hf. reflexivity.
  - intros resp Hf. split; [| split].
    + intros Hok. apply Habort. unfold fetchExecutiveOrders. run_js.
      rewrite Hf. simpl. rewrite Hok. reflexivity.
    + intros e Hok Hj. apply Habort. unfold fetchExecutiveOrders. run_js.
      rewrite Hf. simpl. rewrite Hok. simpl. rewrite Hj. reflexivity.
    + intros rs Hok Hj Hex. apply Habort. unfold fetchExecutiveOrders. run_js.
      rewrite Hf. simpl. rewrite Hok. simpl. rewrite Hj. simpl.
      rewrite (mapOutcome_normalize_fails rs Hex). reflexivity.
Qed.

Lemma updateCache_abort_causes_witness :
  exists s1,
    updateCache (listingWorld [resultOf "A" (Some "Donald Trump"); resultOf "B" None])
                (Some true) (storeWith sevenPending)
      = (Throw "TypeError", s1) /\
    kv s1 = kv (storeWith sevenPending) /\ puts s1 = puts (storeWith sevenPending).
Proof.
  destruct (updateCache_abort_causes
              (listingWorld [resultOf "A" (Some "Donald Trump"); resultOf "B" None])
              (Some true) (storeWith sevenPending)) as (_ & Hresp).
  destruct (Hresp (mkListingResponse true "OK"
                     (Ok [resultOf "A" (Some "Donald Trump"); resultOf "B" None])) eq_refl)
    as (_ & _ & Hbad).
  apply (Hbad [resultOf "A" (Some "Donald Trump"); resultOf "B" None]);
    [reflexivity | reflexivity |].
  right. left. reflexivity.
Defined.

(** X12: when fetchExecutiveOrders succeeds on a store whose queue is q,
    updateCache returns normally and the snapshot stored is the fetched
    orders with the clock reading made after the fetch, whatever was stored
    before.  Without [summary = true] it makes that single put and the
    queue key is untouched; with it the stored queue becomes q followed by
    one pending item for each fetched order whose document is not in q, in
    the order of the listing. *)
Theorem updateCache_success (w : World) (summary : option bool) (s s1 : State)
  (os : list ExecutiveOrder) (q : list QueueItem) :
  fetchExecutiveOrders w s = (Ok os, s1) ->
  queueOf s = Some q ->
  exists s',
    updateCache w summary s = (Ok tt, s') /\
    snapshotOf s' = Some (mkCachedData (Date_now w (tick s1)) os) /\
    (summary <> Some true ->
       puts s' = (puts s ++ [("orders", VSnapshot (mkCachedData (Date_now w (tick s1)) os))])%list /\
       kv s' !! "summary_queue" = kv s !! "summary_queue") /\
    (summary = Some true ->
       queueOf s' = Some (q ++ (newQueueItem <$>
                            filter (fun o => document_number o ∉ docs q) os))%list).
Proof.
  intros Hf Hq. pose proof (updateCache_run w summary s) as Hrun.
  destruct (fetchExecutiveOrders_store w s) as [r Hr].
  rewrite Hf in Hr. injection Hr as <- ->. rewrite Hf in Hrun. simpl in Hrun.
  set (snapshot := VSnapshot _) in *. set (s2 := mkState _ _ _) in Hrun.
  assert (Hq2 : queueOf s2 = Some q).
  { unfold queueOf, s2. simpl. rewrite lookup_insert_ne by discriminate. exact Hq. }
  assert (Hsnap2 : snapshotOf s2 = Some (mkCachedData (Date_now w (S (S (tick s)))) os)).
  { unfold snapshotOf, s2. simpl. rewrite lookup_insert_eq. reflexivity. }
  assert (Hplain : summary <> Some true -> updateCache w summary s = (Ok tt, s2)).
  { intros Hne. destruct summary as [[|]|]; [congruence | exact Hrun | exact Hrun]. }
  destruct (decide (summary = Some true)) as [->|Hne].
  - pose proof (enqueueNew_run s2 q os Hq2) as Hen.
    pose proof (enqueueNew_queue s2 q os Hq2) as Hq'.
    exists (snd (enqueueNew os s2)).
    split; [rewrite Hrun, Hen; reflexivity|].
    split; [| split; [congruence|]].
    + rewrite Hen. simpl. destruct (newItemsFor q os); [exact Hsnap2|].
      unfold snapshotOf. simpl. rewrite lookup_insert_ne by discriminate.
      unfold s2. simpl. rewrite lookup_insert_eq. reflexivity.
    + intros _. rewrite Hq'. f_equal. f_equal. unfold newItemsFor. f_equal.
      apply list_filter_iff. intros o. unfold docs.
      rewrite elem_of_list_to_set. reflexivity.
  - exists s2. split; [apply Hplain, Hne|]. split; [exact Hsnap2|].
    split; [| congruence]. intros _. split; [reflexivity|].
    unfold s2. simpl. apply lookup_insert_ne. discriminate.
Qed.

Lemma updateCache_success_witness :
  exists s',
    updateCache (listingWorld [resultOf "A" (Some "Donald Trump");
                               resultOf "B" (Some "Donald Trump")])
                (Some true) (storeWith [pendingItem "B"]) = (Ok tt, s') /\
    queueOf s' = Some [pendingItem "B"; pendingItem "A"].
Proof.
  destruct (updateCache_success
              (listingWorld [resultOf "A" (Some "Donald Trump");
                             resultOf "B" (Some "Donald Trump")])
              (Some true) (storeWith [pendingItem "B"])
              (snd (fetchExecutiveOrders
                      (listingWorld [resultOf "A" (Some "Donald Trump");
                                     resultOf "B" (Some "Donald Trump")])
                      (storeWith [pendingItem "B"])))
              [orderOf "A"; orderOf "B"] [pendingItem "B"])
    as (s' & Hrun & _ & _ & Hq'); [reflexivity | reflexivity |].
  exists s'. split; [exact Hrun|]. rewrite (Hq' eq_refl). vm_compute. reflexivity.
Defined.

(** ** The API handlers *)

Lemma get_snapshot_run (s : State) (c : CachedData) :
  snapshotOf s = Some c -> get_snapshot s = (Ok (Some c), s).
Proof.
  unfold snapshotOf, get_snapshot. run_js.
  destruct (kv s !! "orders") as [[c0|q0|t]|]; simpl; congruence.
Qed.

Lemma get_snapshot_absent (s : State) :
  kv s !! "orders" = None -> get_snapshot s = (Ok None, s).
Proof. unfold get_snapshot. run_js. intros ->. reflexivity. Qed.

Lemma get_snapshot_store (s : State) : exists r, get_snapshot s = (r, s).
Proof.
  unfold get_snapshot. run_js.
  destruct (kv s !! "orders") as [[c0|q0|t]|]; simpl; eauto.
  destruct (truthy t); eauto.
Qed.

Lemma updateCache_snapshot (w : World) (summary : option bool) (s s1 : State)
  (os : list ExecutiveOrder) :
  fetchExecutiveOrders w s = (Ok os, s1) ->
  snapshotOf (snd (updateCache w summary s))
    = Some (mkCachedData (Date_now w (tick s1)) os).
Proof.
  intros Hf. pose proof (updateCache_run w summary s) as Hrun.
  rewrite Hf in Hrun. simpl in Hrun. rewrite Hrun.
  set (s2 := mkState _ _ _).
  assert (H2 : snapshotOf s2 = Some (mkCachedData (Date_now w (tick s1)) os)).
  { unfold snapshotOf, s2. simpl. rewrite lookup_insert_eq. reflexivity. }
  destruct summary as [[|]|]; try exact H2.
  destruct (enqueueNew_effect os s2) as [->|(q' & ->)]; [exact H2|].
  unfold snapshotOf. simpl. rewrite lookup_insert_ne by discriminate.
  unfold s2. simpl. rewrite lookup_insert_eq. reflexivity.
Qed.

(** X13: with a snapshot in the store, GET /api/orders answers 200 with
    the orders of the snapshot and leaves the state exactly as it is (no
    put, no outside call).  In particular, right after an updateCache whose
    fetch succeeded it answers with exactly the orders that were fetched. *)
Theorem ordersHandler_serves_snapshot (w : World) (s : State) :
  (forall c, snapshotOf s = Some c ->
     ordersHandler w s = (Ok (mkReply (BOrders (orders c)) 200 []), s)) /\
  (forall summary os s1,
     fetchExecutiveOrders w s = (Ok os, s1) ->
     ordersHandler w (snd (updateCache w summary s))
       = (Ok (mkReply (BOrders os) 200 []), snd (updateCache w summary s))).
Proof.
  assert (Hread : forall st c, snapshotOf st = Some c ->
            ordersHandler w st = (Ok (mkReply (BOrders (orders c)) 200 []), st)).
  { intros st c Hc. unfold ordersHandler. unfold bind at 1.
    rewrite (get_snapshot_run st c Hc). reflexivity. }
  split; [apply Hread|].
  intros summary os s1 Hf.
  apply (Hread _ _ (updateCache_snapshot w summary s s1 os Hf)).
Qed.

(** X14: without a stored snapshot, GET /api/orders runs updateCache with
    no summary flag.  When the fetch succeeds it answers 202 Data is being
    processed, the snapshot is stored by a single put and the queue key is
    not written: the fetched orders are not enqueued by this path.  When
    the fetch throws, the handler throws the same error and nothing is
    written. *)
Theorem ordersHandler_first_request (w : World) (s : State) :
  kv s !! "orders" = None ->
  (forall os s1, fetchExecutiveOrders w s = (Ok os, s1) ->
     exists s',
       ordersHandler w s
         = (Ok (mkReply (BMessage "Data is being processed") 202 []), s') /\
       snapshotOf s' = Some (mkCachedData (Date_now w (tick s1)) os) /\
       puts s' = (puts s ++
                  [("orders", VSnapshot (mkCachedData (Date_now w (tick s1)) os))])%list /\
       kv s' !! "summary_queue" = kv s !! "summary_queue") /\
  (forall e s1, fetchExecutiveOrders w s = (Throw e, s1) ->
     ordersHandler w s = (Throw e, s1) /\ kv s1 = kv s /\ puts s1 = puts s).
Proof.
  intros Hnone. pose proof (updateCache_run w None s) as Hrun.
  destruct (fetchExecutiveOrders_store w s) as [r Hr].
  split.
  - intros os s1 Hf. rewrite Hf in Hr. injection Hr as <- ->.
    rewrite Hf in Hrun. simpl in Hrun.
    eexists. unfold ordersHandler. unfold bind at 1.
    rewrite (get_snapshot_absent s Hnone). unfold bind at 1. rewrite Hrun.
    split; [reflexivity|]. simpl. unfold snapshotOf. simpl.
    rewrite lookup_insert_eq. split; [reflexivity|]. split; [reflexivity|].
    apply lookup_insert_ne. discriminate.
  - intros e s1 Hf. rewrite Hf in Hr. injection Hr as <- ->.
    rewrite Hf in Hrun.
    unfold ordersHandler. unfold bind at 1.
    rewrite (get_snapshot_absent s Hnone). unfold bind at 1. rewrite Hrun.
    split; [reflexivity|]. split; reflexivity.
Qed.

Lemma ordersHandler_first_request_witness :
  kv emptyStore !! "orders" = None /\
  ordersHandler offlineWorld emptyStore = (Throw "offline", mkState ∅ [] 2) /\
  exists s',
    ordersHandler (listingWorld [resultOf "A" (Some "Donald Trump")]) emptyStore
      = (Ok (mkReply (BMessage "Data is being processed") 202 []), s') /\
    snapshotOf s' = Some (mkCachedData 1700000000000%Z [orderOf "A"]).
Proof.
  split; [reflexivity|]. split.
  - destruct (ordersHandler_first_request offlineWorld emptyStore eq_refl) as (_ & Hthrow).
    destruct (Hthrow "offline" (mkState ∅ [] 2) eq_refl) as (Hrun & _). exact Hrun.
  - destruct (ordersHandler_first_request
                (listingWorld [resultOf "A" (Some "Donald Trump")]) emptyStore eq_refl)
      as (Hok & _).
    destruct (Hok [orderOf "A"] (mkState ∅ [] 2) eq_refl) as (s' & Hrun & Hsnap & _).
    exists s'. auto.
Defined.

Lemma find_first (d : string) (pre post : list ExecutiveOrder) (o : ExecutiveOrder) :
  document_number o = d ->
  (forall o', o' ∈ pre -> document_number o' <> d) ->
  List.find (fun x => String.eqb (document_number x) d) (pre ++ o :: post) = Some o.
Proof.
  intros Hd. induction pre as [|p pre IH]; intros Hpre; simpl.
  - rewrite Hd, String.eqb_refl. reflexivity.
  - destruct (String.eqb_spec (document_number p) d) as [He|_].
    + exfalso. apply (Hpre p); [left | exact He].
    + apply IH. intros o' Hin. apply Hpre. right. exact Hin.
Qed.

Lemma find_absent (d : string) (l : list ExecutiveOrder) :
  (forall o, o ∈ l -> document_number o <> d) ->
  List.find (fun x => String.eqb (document_number x) d) l = None.
Proof.
  induction l as [|p l IH]; intros Hl; simpl; [reflexivity|].
  destruct (String.eqb_spec (document_number p) d) as [He|_].
  - exfalso. apply (Hl p); [left | exact He].
  - apply IH. intros o Hin. apply Hl. right. exact Hin.
Qed.

Lemma orderHandler_run (stringify : KVValue -> string) (d : string) (s : State)
  (c : CachedData) (pre post : list ExecutiveOrder) (o : ExecutiveOrder) :
  snapshotOf s = Some c ->
  orders c = (pre ++ o :: post)%list ->
  document_number o = d ->
  (forall o', o' ∈ pre -> document_number o' <> d) ->
  orderHandler stringify d s =
    (Ok (mkReply
           (BOrder o
              match kv s !! summaryKey d with
              | None => placeholderSummary
              | Some (VText t) =>
                  if truthy t then mkAiSummary t fmt_markdown else placeholderSummary
              | Some v =>
                  if truthy (stringify v) then mkAiSummary (stringify v) fmt_markdown
                  else placeholderSummary
              end
              (summaryKey d))
           200 noStoreHeaders), s).
Proof.
  intros Hc Ho Hd Hpre. unfold orderHandler. unfold bind at 1.
  rewrite (get_snapshot_run s c Hc). rewrite Ho, (find_first d pre post o Hd Hpre).
  unfold get_text. run_js.
  destruct (kv s !! summaryKey d) as [[c0|q0|t]|]; reflexivity.
Qed.

(** X15: GET /api/order/:documentNumber never changes the state, whatever
    is stored: it makes no put and no outside call, also when it fails.  It
    answers 404 Not Found when no snapshot is stored and 404 Order not
    found when the snapshot has no order with that document number. *)
Theorem orderHandler_not_found (stringify : KVValue -> string) (d : string) (s : State) :
  (exists r, orderHandler stringify d s = (r, s)) /\
  (kv s !! "orders" = None ->
     orderHandler stringify d s = (Ok (mkReply (BMessage "Not Found") 404 []), s)) /\
  (forall c, snapshotOf s = Some c ->
     (forall o, o ∈ orders c -> document_number o <> d) ->
     orderHandler stringify d s = (Ok (mkReply (BMessage "Order not found") 404 []), s)).
Proof.
  split; [| split].
  - unfold orderHandler. unfold bind at 1.
    destruct (get_snapshot_store s) as [[[c|]|e] ->]; [| eauto | eauto].
    destruct (List.find _ (orders c)); [| eauto].
    unfold get_text. run_js. eauto.
  - intros Hnone. unfold orderHandler. unfold bind at 1.
    rewrite (get_snapshot_absent s Hnone). reflexivity.
  - intros c Hc Hno. unfold orderHandler. unfold bind at 1.
    rewrite (get_snapshot_run s c Hc), (find_absent d _ Hno). reflexivity.
Qed.

(** X16: when the first order of the stored snapshot with the asked
    document number is o, GET /api/order/:documentNumber answers 200 with
    the no-store headers, the order o and the key summary: followed by the
    document number.  The summary is the text stored under that key with
    format markdown when that text is not empty, and the text Summary is
    being generated... with format text when the key is absent or holds the
    empty text.  The state is unchanged. *)
Theorem orderHandler_found (stringify : KVValue -> string) (d : string) (s : State)
  (c : CachedData) (pre post : list ExecutiveOrder) (o : ExecutiveOrder) :
  snapshotOf s = Some c ->
  orders c = (pre ++ o :: post)%list ->
  document_number o = d ->
  (forall o', o' ∈ pre -> document_number o' <> d) ->
  exists ai,
    orderHandler stringify d s
      = (Ok (mkReply (BOrder o ai ("summary:" ++ d)) 200 noStoreHeaders), s) /\
    (forall t, kv s !! ("summary:" ++ d) = Some (VText t) -> truthy t = true ->
       ai = mkAiSummary t fmt_markdown) /\
    (kv s !! ("summary:" ++ d) = None \/ kv s !! ("summary:" ++ d) = Some (VText "") ->
       ai = mkAiSummary "Summary is being generated..." fmt_text).
Proof.
  intros Hc Ho Hd Hpre.
  eexists. split; [apply (orderHandler_run stringify d s c pre post o Hc Ho Hd Hpre)|].
  unfold summaryKey. split.
  - intros t Hk Ht. rewrite Hk, Ht. reflexivity.
  - intros [Hk|Hk]; rewrite Hk; reflexivity.
Qed.

Lemma orderHandler_found_witness :
  exists ai,
    orderHandler (fun _ => "{}") "A"
      (mkState (<["summary:A" := VText "## Summary"]>
                  {["orders" := VSnapshot (mkCachedData 1700000000000%Z
                                             [orderOf "B"; orderOf "A"])]}) [] 0)
    = (Ok (mkReply (BOrder (orderOf "A") ai "summary:A") 200 noStoreHeaders),
       mkState (<["summary:A" := VText "## Summary"]>
                  {["orders" := VSnapshot (mkCachedData 1700000000000%Z
                                             [orderOf "B"; orderOf "A"])]}) [] 0) /\
    ai = mkAiSummary "## Summary" fmt_markdown.
Proof.
  destruct (orderHandler_found (fun _ => "{}") "A"
              (mkState (<["summary:A" := VText "## Summary"]>
                  {["orders" := VSnapshot (mkCachedData 1700000000000%Z
                                             [orderOf "B"; orderOf "A"])]}) [] 0)
              (mkCachedData 1700000000000%Z [orderOf "B"; orderOf "A"])
              [orderOf "B"] [] (orderOf "A"))
    as (ai & Hrun & Hmd & _); try reflexivity.
  - intros o' Hin. apply list_elem_of_singleton in Hin as ->. discriminate.
  - exists ai. split; [exact Hrun|]. apply Hmd; reflexivity.
Defined.

(** X17: in every state reached from a store satisfying the property of X6
    (the empty store for one) by invocations of processQueue and
    updateCache, if the queue holds a completed item for a document and
    the snapshot lists that document, GET /api/order/:documentNumber
    answers with the stored summary as markdown, not empty, and never with
    the placeholder. *)
Theorem completed_order_is_served_with_summary (w : World)
  (stringify : KVValue -> string) (cs : list Call) (s0 : State)
  (q : list QueueItem) (item : QueueItem) (c : CachedData)
  (pre post : list ExecutiveOrder) (o : ExecutiveOrder) :
  summarized s0 ->
  queueOf (runCalls w cs s0) = Some q ->
  item ∈ q -> status item = completed ->
  snapshotOf (runCalls w cs s0) = Some c ->
  orders c = (pre ++ o :: post)%list ->
  document_number o = documentNumber item ->
  (forall o', o' ∈ pre -> document_number o' <> documentNumber item) ->
  exists t,
    orderHandler stringify (documentNumber item) (runCalls w cs s0)
      = (Ok (mkReply (BOrder o (mkAiSummary t fmt_markdown)
                             (summaryKey (documentNumber item)))
                     200 noStoreHeaders),
         runCalls w cs s0) /\
    truthy t = true /\
    kv (runCalls w cs s0) !! summaryKey (documentNumber item) = Some (VText t).
Proof.
  intros H0 Hq Hin Hst Hc Ho Hd Hpre.
  assert (Hsum : summarized (runCalls w cs s0)).
  { apply (runCalls_invariant w summarized); auto.
    - apply processQueue_summarized.
    - intros summary st. apply updateCache_summarized. }
  destruct Hsum as (q' & Hq' & Hall). rewrite Hq in Hq'. injection Hq' as <-.
  destruct (Hall item Hin Hst) as (t & Hk & Ht).
  exists t. split; [| auto].
  rewrite (orderHandler_run stringify _ _ c pre post o Hc Ho Hd Hpre).
  rewrite Hk, Ht. reflexivity.
Qed.

Lemma completed_order_is_served_with_summary_witness :
  exists t,
    fst (orderHandler (fun _ => "{}") "A"
           (runCalls (listingWorld [resultOf "A" (Some "Donald Trump")])
                     [CallUpdateCache (Some true); CallProcessQueue] emptyStore))
    = Ok (mkReply (BOrder (orderOf "A") (mkAiSummary t fmt_markdown) "summary:A")
                  200 noStoreHeaders).
Proof.
  destruct (completed_order_is_served_with_summary
              (listingWorld [resultOf "A" (Some "Donald Trump")]) (fun _ => "{}")
              [CallUpdateCache (Some true); CallProcessQueue] emptyStore
              [mkQueueItem "A" (rawTextUrl (pendingItem "A")) completed 1
                           (Some 1700000000000%Z)]
              (mkQueueItem "A" (rawTextUrl (pendingItem "A")) completed 1
                           (Some 1700000000000%Z))
              (mkCachedData 1700000000000%Z [orderOf "A"])
              [] [] (orderOf "A"))
    as (t & Hrun & _); try reflexivity.
  - exists []. split; [reflexivity|]. intros item Hin. inversion Hin.
  - left.
  - intros o' Hin. inversion Hin.
  - exists t. exact (f_equal fst Hrun).
Defined.

Lemma ordersHandler_serves_snapshot_witness :
  ordersHandler offlineWorld
    (mkState {["orders" := VSnapshot (mkCachedData 1%Z [orderOf "A"])]} [] 0)
  = (Ok (mkReply (BOrders [orderOf "A"]) 200 []),
     mkState {["orders" := VSnapshot (mkCachedData 1%Z [orderOf "A"])]} [] 0).
Proof.
  destruct (ordersHandler_serves_snapshot offlineWorld
              (mkState {["orders" := VSnapshot (mkCachedData 1%Z [orderOf "A"])]} [] 0))
    as (Hread & _).
  apply (Hread (mkCachedData 1%Z [orderOf "A"])). reflexivity.
Defined.

Lemma orderHandler_not_found_witness :
  orderHandler (fun _ => "{}") "Z"
    (mkState {["orders" := VSnapshot (mkCachedData 1%Z [orderOf "A"])]} [] 0)
  = (Ok (mkReply (BMessage "Order not found") 404 []),
     mkState {["orders" := VSnapshot (mkCachedData 1%Z [orderOf "A"])]} [] 0).
Proof.
  destruct (orderHandler_not_found (fun _ => "{}") "Z"
              (mkState {["orders" := VSnapshot (mkCachedData 1%Z [orderOf "A"])]} [] 0))
    as (_ & _ & Hno).
  apply (Hno (mkCachedData 1%Z [orderOf "A"])); [reflexivity|].
  intros o Hin. apply list_elem_of_singleton in Hin as ->. discriminate.
Defined.

(** ** The backends again *)

(** X18: summarizeEOClaude makes exactly one request and no put.  It
    returns the text of the answer when the request answers with a success
    status and that text can be read; in every other case (the request
    throws, the status is not a success whatever the error body says, the
    body cannot be read) it throws the one error Failed to generate
    summary. *)
Theorem summarizeEOClaude_single_error (w : World) (txt : string) (s : State) :
  snd (summarizeEOClaude w txt s) = mkState (kv s) (puts s) (S (tick s)) /\
  match fetch_claude w (tick s) (CLAUDE_API_URL w) (CLAUDE_API_KEY w)
                     (instructions ++ txt) with
  | Ok resp =>
      if c_ok resp then
        match c_text resp with
        | Ok r => fst (summarizeEOClaude w txt s) = Ok r
        | Throw _ => fst (summarizeEOClaude w txt s) = Throw "Failed to generate summary"
        end
      else fst (summarizeEOClaude w txt s) = Throw "Failed to generate summary"
  | Throw _ => fst (summarizeEOClaude w txt s) = Throw "Failed to generate summary"
  end.
Proof.
  unfold summarizeEOClaude. run_js.
  destruct (fetch_claude w (tick s) _ _ _) as [resp|e]; simpl; [| auto].
  destruct (c_ok resp); simpl.
  - destruct (c_text resp) as [r|e]; simpl; auto.
  - destruct (c_error resp) as [[m|]|e]; simpl; auto.
Qed.

(** X19: summarizeEO, as configured, is the hosted-model backend: its
    result depends on the world only through AI.run, so the Claude endpoint
    is never called.  It makes one call and no put; whenever it returns, the
    text is not empty, and is either the non-empty text of the model's
    answer or the text failed; it throws exactly when AI.run throws, with
    the same error. *)
Theorem summarizeEO_hosted_model_only (w w' : World) (txt : string) (s : State) :
  (forall t m msgs, AI_run w' t m msgs = AI_run w t m msgs) ->
  summarizeEO w' txt s = summarizeEO w txt s /\
  snd (summarizeEO w txt s) = mkState (kv s) (puts s) (S (tick s)) /\
  (forall r, fst (summarizeEO w txt s) = Ok r ->
     truthy r = true /\
     (AI_run w (tick s) AI_MODEL (messagesCF txt) = Ok (Some r) \/ r = "failed")) /\
  (forall e, fst (summarizeEO w txt s) = Throw e <->
             AI_run w (tick s) AI_MODEL (messagesCF txt) = Throw e).
Proof.
  intros Hsame. unfold summarizeEO, summarizeEOCF. simpl. run_js.
  rewrite Hsame.
  destruct (AI_run w (tick s) AI_MODEL (messagesCF txt)) as [[r0|]|e0]; simpl.
  - destruct (truthy r0) eqn:Ht; simpl.
    + split; [reflexivity|]. split; [reflexivity|]. split.
      * intros r [= <-]. auto.
      * intros e. split; discriminate.
    + split; [reflexivity|]. split; [reflexivity|]. split.
      * intros r [= <-]. auto.
      * intros e. split; discriminate.
  - split; [reflexivity|]. split; [reflexivity|]. split.
    + intros r [= <-]. auto.
    + intros e. split; discriminate.
  - split; [reflexivity|]. split; [reflexivity|]. split.
    + intros r Hr. discriminate.
    + intros e. split; intros [= <-]; reflexivity.
Qed.

Lemma summarizeEO_hosted_model_only_witness :
  summarizeEO onlineWorld "text" emptyStore
  = summarizeEO (listingWorld []) "text" emptyStore.
Proof.
  destruct (summarizeEO_hosted_model_only (listingWorld []) onlineWorld "text" emptyStore)
    as (Hsame & _); [reflexivity|]. exact Hsame.
Defined.

(** ** A retry that succeeds *)

(** X20: a queue holding one failed item below the retry ceiling whose
    lastAttempt T is not 0: when the clock read by the filter is at least
    T + RETRY_DELAY_MS, the raw text is then fetched and read and the hosted
    model answers with a non-empty text, processQueue leaves the item
    completed with one more attempt and the clock reading of the turn as
    lastAttempt, and stores the summary under the summary key of its
    document. *)
Theorem processQueue_retry_succeeds (w : World) (s : State) (item : QueueItem)
  (T : Z) (resp : Response) (txt summary : string) :
  queueOf s = Some [item] ->
  status item = failed ->
  (attempts item < MAX_RETRIES)%Z ->
  lastAttempt item = Some T -> T <> 0%Z ->
  (RETRY_DELAY_MS <= Date_now w (tick s) - T)%Z ->
  fetch_text w (S (S (tick s))) (rawTextUrl item) = Ok resp ->
  text resp = Ok txt ->
  AI_run w (S (S (S (tick s)))) AI_MODEL (messagesCF txt) = Ok (Some summary) ->
  truthy summary = true ->
  exists s',
    processQueue w s = (Ok tt, s') /\
    queueOf s' = Some [mkQueueItem (documentNumber item) (rawTextUrl item) completed
                                   (attempts item + 1)%Z
                                   (Some (Date_now w (S (tick s))))] /\
    kv s' !! summaryKey (documentNumber item) = Some (VText summary).
Proof.
  intros Hq Hst Hlt Hla HT Hdue Hf Ht Ha Htr.
  destruct item as [doc url st att la]. simpl in *. subst st la.
  set (item := mkQueueItem doc url failed att (Some T)).
  assert (Hel : eligibleItems w [item] s = (Ok [0], mkState (kv s) (puts s) (S (tick s)))).
  { unfold eligibleItems, eligibleFrom, isEligible. simpl. run_js.
    destruct (Z.ltb_spec att MAX_RETRIES) as [_|]; [| lia].
    destruct (Z.eqb_spec T 0) as [|_]; [contradiction|]. simpl.
    destruct (Z.leb_spec RETRY_DELAY_MS (Date_now w (tick s) - T)) as [_|]; [| lia].
    reflexivity. }
  destruct (processItem_run w [item] 0 item (mkState (kv s) (puts s) (S (tick s))) eq_refl)
    as (t' & Hrun & _).
  subst item. eexists. split.
  - unfold processQueue. unfold bind at 1. rewrite (get_queue_run s _ Hq).
    cbn beta iota. cbn [length Nat.eqb]. unfold bind at 1. rewrite Hel.
    cbn [take MAX_CONCURRENT_REQUESTS processItems].
    unfold bind at 1. unfold bind at 1. rewrite Hrun. reflexivity.
  - assert (Hout : turnOutcome w (S (S (tick s)))
                     (markProcessing (mkQueueItem doc url failed att (Some T))
                                     (Date_now w (S (tick s)))) = Ok summary).
    { rewrite turnOutcome_unfold. simpl. rewrite Hf, Ht, Ha, Htr. reflexivity. }
    unfold queueOf, turnPuts, finalItem, turnStatus, applyPuts. simpl.
    simpl in Hout. rewrite Hout. simpl.
    rewrite lookup_insert_eq. split; [reflexivity|].
    rewrite lookup_insert_ne by (apply not_eq_sym, summaryKey_not_queue).
    apply lookup_insert_eq.
Qed.

Lemma processQueue_retry_succeeds_witness :
  exists s',
    processQueue onlineWorld (storeWith [failedItem "A" 2 (Some 1%Z)]) = (Ok tt, s') /\
    queueOf s' = Some [mkQueueItem "A" (rawTextUrl (failedItem "A" 2 (Some 1%Z)))
                                   completed 3 (Some 1700000000000%Z)] /\
    kv s' !! "summary:A" = Some (VText "## Summary").
Proof.
  apply (processQueue_retry_succeeds onlineWorld (storeWith [failedItem "A" 2 (Some 1%Z)])
           (failedItem "A" 2 (Some 1%Z)) 1
           (mkResponse true "OK" (Ok "By the authority vested in me"))
           "By the authority vested in me" "## Summary");
    try reflexivity.
  - discriminate.
  - unfold RETRY_DELAY_MS. simpl. lia.
Defined.
